(** * hoctap-api: the user repository over its MySQL table

    A shallow embedding of [database/user.go] (the [UserRepository] methods)
    together with the part of the storage server those methods talk to: the
    [users] table declared by [createTables] in [database/connection.go].

    The Go code is a sequence of SQL round trips.  Each round trip can fail
    (the [err != nil] branches of the source) and the server evaluates
    [CURRENT_TIMESTAMP] when a statement runs, so the embedding threads a
    [World]: the server state plus the list of things the environment will do
    at the coming round trips (let time pass, or break the connection). *)

From Stdlib Require Import ZArith String Ascii DecimalString.
From stdpp Require Import gmap strings list fin_maps sorting.

Local Open Scope string_scope.
Local Open Scope Z_scope.

(** ** Values exchanged with the caller *)

(** [type User struct] of user.go; the two [time.Time] fields are kept as
    whole seconds, the resolution of a MySQL [TIMESTAMP] column. *)
Record User := mkUser {
  ID : Z;
  Name : string;
  Email : string;
  CreatedAt : Z;
  UpdatedAt : Z
}.

(** Errors a driver call can hand back to the Go code. *)
Inductive sql_error :=
| ErrBadConn          (* the round trip itself failed *)
| ErrNoRows           (* sql.ErrNoRows: Scan on an empty result *)
| ErrDuplicateEntry   (* PRIMARY KEY or UNIQUE violated *)
| ErrDataTooLong.     (* value does not fit its VARCHAR(255) column *)

(** Errors produced by the repository.  The source builds them with
    [fmt.Errorf]; the three shapes below are the three families of messages:
    - ["user with ID %d not found"],
    - ["user with email '%s' already exists"],
    - ["<what failed>: %v"] wrapping a driver error,
    and [SeedUsers] wraps whatever [CreateUser] returned in
    ["failed to seed user %s: %v"]. *)
Inductive error :=
| NotFoundError (id : Z)
| ConflictError (email : string)
| QueryError (context : string) (cause : sql_error)
| SeedError (name : string) (cause : error).

(** [sql.Result] of an [Exec]. *)
Record exec_result := mkResult { LastInsertId : Z; RowsAffected : Z }.

(** ** The storage server *)

(** One stored row; the primary key is the key of the table map below. *)
Record Row := mkRow {
  r_name : string;
  r_email : string;
  r_created_at : Z;
  r_updated_at : Z
}.

#[global] Instance Row_eq_dec : EqDecision Row.
Proof. solve_decision. Defined.

(** The table is a finite map from [id] (PRIMARY KEY) to rows;
    [auto_increment] is the table's AUTO_INCREMENT counter and [clock] the
    server's [CURRENT_TIMESTAMP] in seconds. *)
Record Server := mkServer {
  users : gmap Z Row;
  auto_increment : Z;
  clock : Z
}.

(** A freshly created schema. *)
Definition empty_server (now : Z) : Server :=
  {| users := ∅; auto_increment := 1; clock := now |}.

Definition to_user (kv : Z * Row) : User :=
  mkUser kv.1 (r_name kv.2) (r_email kv.2) (r_created_at kv.2) (r_updated_at kv.2).

(** Length of a [utf8mb4] value in characters: every byte that is not a
    UTF-8 continuation byte (0x80..0xBF) starts a character. *)
Definition is_continuation (c : ascii) : bool :=
  let n := N_of_ascii c in ((128 <=? n) && (n <? 192))%N.

Fixpoint char_length (s : string) : nat :=
  match s with
  | EmptyString => O
  | String c rest =>
      if is_continuation c then char_length rest else S (char_length rest)
  end.

(** [VARCHAR(255)]: the server is taken in its default strict mode (MySQL
    5.7+ / MariaDB 10.3+, as the README requires), where a longer value is an
    error and is never truncated. *)
Definition varchar255 (s : string) : bool := Nat.leb (char_length s) 255.

(** [ORDER BY created_at DESC], as a stable insertion sort. *)
Fixpoint insert_desc (u : User) (l : list User) : list User :=
  match l with
  | [] => [u]
  | v :: t => if CreatedAt v <? CreatedAt u then u :: v :: t
              else v :: insert_desc u t
  end.

Definition order_by_created_at_desc (l : list User) : list User :=
  foldr insert_desc [] l.

(** What the environment does when a statement is sent. *)
Inductive event :=
| Tick (dt : N)   (* [dt] seconds pass, then the statement runs *)
| Fault.          (* the round trip fails, the statement does not run *)

(** The handle [DB] of connection.go as the code sees it: the server behind
    it and what is going to happen on the wire.  An empty [pending] list is a
    quiet environment: no faults and a clock that stands still. *)
Record World := mkWorld {
  server : Server;
  pending : list event
}.

(** No fault among the next [n] round trips. *)
Fixpoint calm (n : nat) (env : list event) : bool :=
  match n, env with
  | O, _ => true
  | _, [] => true
  | S n', Tick _ :: rest => calm n' rest
  | S _, Fault :: _ => false
  end.

Definition advance (dt : N) (s : Server) : Server :=
  {| users := users s; auto_increment := auto_increment s;
     clock := clock s + Z.of_N dt |}.

(** Computations against the driver and in the repository.  State changes
    survive an error, as in Go: a failed call does not undo earlier calls. *)
Definition Sql (A : Type) : Type := World -> (sql_error + A) * World.
Definition Repo (A : Type) : Type := World -> (error + A) * World.

Definition ret {A} (a : A) : Repo A := fun w => (inr a, w).
Definition throw {A} (e : error) : Repo A := fun w => (inl e, w).
Definition bind {A B} (m : Repo A) (k : A -> Repo B) : Repo B :=
  fun w => match m w with
           | (inl e, w') => (inl e, w')
           | (inr a, w') => k a w'
           end.

(** [if err != nil { return nil, fmt.Errorf("<context>: %v", err) }] *)
Definition failed_to {A} (context : string) (m : Sql A) : Repo A :=
  fun w => match m w with
           | (inl e, w') => (inl (QueryError context e), w')
           | (inr a, w') => (inr a, w')
           end.

Notation "'let*' x ':=' m 'in' k" := (bind m (fun x => k))
  (at level 10, x binder, m at level 100, k at level 200).

(** Whether the next round trip breaks, and the server as the next
    statement finds it. *)
Definition faulty (w : World) : bool :=
  match pending w with
  | Fault :: _ => true
  | _ => false
  end.

Definition arrives (w : World) : Server :=
  match pending w with
  | Tick dt :: _ => advance dt (server w)
  | _ => server w
  end.

(** The world once the next round trip is over and has left the server in
    state [s]. *)
Definition next (w : World) (s : Server) : World :=
  mkWorld s (tail (pending w)).

(** One round trip: consult the environment, then run the statement. *)
Definition roundtrip {A} (stmt : Server -> (sql_error + A) * Server) : Sql A :=
  fun w =>
    if faulty w then (inl ErrBadConn, next w (server w))
    else let '(r, s') := stmt (arrives w) in (r, next w s').

(** [db.Query]: a read, the rows come back. *)
Definition Query {A} (q : Server -> list A) : Sql (list A) :=
  roundtrip (fun s => (inr (q s), s)).

(** [db.QueryRow(...).Scan(...)]: the first row, [sql.ErrNoRows] if none. *)
Definition QueryRow {A} (q : Server -> list A) : Sql A :=
  roundtrip (fun s => match q s with
                      | [] => (inl ErrNoRows, s)
                      | a :: _ => (inr a, s)
                      end).

(** [db.Exec]. *)
Definition Exec (c : Server -> (sql_error + exec_result) * Server)
  : Sql exec_result := roundtrip c.

(** A sample collation for running the model: ASCII letters compare without
    regard to case. *)
Definition fold_case (c : ascii) : ascii :=
  let n := N_of_ascii c in
  if ((65 <=? n) && (n <=? 90))%N then ascii_of_N (n + 32) else c.

Fixpoint ascii_ci (s : string) : string :=
  match s with
  | EmptyString => EmptyString
  | String c rest => String (fold_case c) (ascii_ci rest)
  end.

(** Worlds to run the model in: an empty table behind a quiet connection,
    the same with a clock that moves, and a table holding one user created
    at time 0. *)
Definition quiet (now : Z) : World := mkWorld (empty_server now) [].

Definition ticking (now : Z) : World :=
  mkWorld (empty_server now) [Tick 5; Tick 0; Tick 2; Tick 1].

Definition ann_world : World :=
  mkWorld (mkServer {[ 1 := mkRow "Ann" "ann@x.com" 0 0 ]} 2 0) [].

(** A name of 256 characters. *)
Fixpoint replicate_char (n : nat) (c : ascii) : string :=
  match n with
  | O => EmptyString
  | S n' => String c (replicate_char n' c)
  end.

Definition long_name : string := replicate_char 256 "a".

(** ** Requests, for talking about sequences of writes *)

Inductive request :=
| Create (name email : string)
| Update (id : Z) (name email : string)
| Delete (id : Z).

Definition sample_requests : list request :=
  [ Create "Ann" "ann@x.com";
    Create "Bob" "bob@x.com";
    Update 1 "Ann K." "ann2@x.com";
    Delete 2 ].

(** A call to one of the methods of the repository. *)
Inductive call :=
| CallGetAllUsers
| CallGetUserByID (id : Z)
| CallCreateUser (name email : string)
| CallUpdateUser (id : Z) (name email : string)
| CallDeleteUser (id : Z)
| CallGetUsersCount
| CallSeedUsers.

(** Calls some of which fail. *)
Definition sample_calls : list call :=
  [ CallCreateUser "Ann" "ann@x.com";
    CallCreateUser "Bob" "ANN@x.com";
    CallGetAllUsers;
    CallUpdateUser 7 "Carl" "carl@x.com";
    CallUpdateUser 1 "Ann K." "ann2@x.com";
    CallDeleteUser 7;
    CallSeedUsers;
    CallGetUsersCount;
    CallGetUserByID 1 ].

(** An empty table behind a connection that breaks once, at the fifth round
    trip, while the clock moves. *)
Definition bumpy (now : Z) : World :=
  mkWorld (empty_server now)
    [Tick 5; Tick 0; Tick 2; Tick 1; Fault; Tick 3; Tick 1; Tick 1; Tick 1;
     Tick 1; Tick 1; Tick 4; Tick 1; Tick 1; Tick 1; Tick 1].

(** ** The HTTP layer (main.go): what a handler answers *)

(** The [Data interface{}] of a response, one constructor per kind of value
    the handlers pass to [sendJSONResponse]: [nil], a user, the list of
    users, the statistics map and the health map. *)
Inductive payload :=
| NoData
| UserData (user : User)
| UsersData (users : list User)
| StatsData (total_users : Z) (timestamp : Z)
| HealthData (status version database : string) (timestamp : Z).

(** [type Response struct]; [Timestamp] is the wall clock (in seconds) at the
    moment the response is built. *)
Record Response := mkResponse {
  Message : string;
  Data : payload;
  Timestamp : Z
}.

(** What was written to the [http.ResponseWriter]. *)
Record Reply := mkReply { StatusCode : Z; Body : Response }.

(** What a handler leaves behind: the lines it gave to [log.Printf], in
    order, and its reply. *)
Record Outcome := mkOutcome { logged : list string; reply : Reply }.

(** The part of a request the handlers look at: [mux.Vars(r)["id"]] and the
    body. *)
Record Request := mkRequest { vars_id : string; body : string }.

Definition StatusOK : Z := 200.
Definition StatusCreated : Z := 201.
Definition StatusBadRequest : Z := 400.
Definition StatusNotFound : Z := 404.
Definition StatusConflict : Z := 409.
Definition StatusInternalServerError : Z := 500.

(** [func sendJSONResponse(w, statusCode, message, data)], with the reading
    of [time.Now()] it takes.  The Content-Type header it sets is the same
    for every response and is left out. *)
Definition sendJSONResponse (now : Z) (statusCode : Z) (message : string)
    (data : payload) : Reply :=
  mkReply statusCode (mkResponse message data now).

(** [DB.Ping()]: a round trip that runs no statement. *)
Definition Ping : Sql unit := roundtrip (fun s => (inr tt, s)).

(** Stand-ins for the library functions of the handlers, for running the
    model: digits only and within the 64-bit range for [strconv.Atoi], the
    decimal rendering for [%d], a body made of the name, a semicolon and the
    email in place of JSON, and four driver texts. *)
Fixpoint parse_digits (acc : Z) (s : string) : option Z :=
  match s with
  | EmptyString => Some acc
  | String c rest =>
      let n := N_of_ascii c in
      if ((48 <=? n) && (n <=? 57))%N
      then parse_digits (10 * acc + (Z.of_N n - 48)) rest
      else None
  end.

Definition sample_Atoi (s : string) : option Z :=
  match s with
  | EmptyString => None
  | _ => match parse_digits 0 s with
         | Some n => if n <=? 9223372036854775807 then Some n else None
         | None => None
         end
  end.

Definition sample_itoa (n : Z) : string :=
  NilZero.string_of_int (Z.to_int n).

Fixpoint split_semicolon (s : string) : option (string * string) :=
  match s with
  | EmptyString => None
  | String c rest =>
      if Ascii.eqb c ";" then Some (EmptyString, rest)
      else match split_semicolon rest with
           | Some (a, b) => Some (String c a, b)
           | None => None
           end
  end.

Definition sample_driver_text (e : sql_error) : string :=
  match e with
  | ErrBadConn => "driver: bad connection"
  | ErrNoRows => "sql: no rows in result set"
  | ErrDuplicateEntry => "Error 1062: Duplicate entry"
  | ErrDataTooLong => "Error 1406: Data too long"
  end.

(** ** The connection provider (connection.go) and the start of main.go *)

(** The environment of the process, as [os.Getenv] reads it. *)
Definition Getenv (env : gmap string string) (key : string) : string :=
  default "" (env !! key).

(** [func getEnv(key, fallback string) string] *)
Definition getEnv (env : gmap string string) (key fallback : string) : string :=
  let value := Getenv env key in
  if bool_decide (value <> "") then value else fallback.

(** [godotenv.Load("config.env")]: the variables of the file that the
    environment does not have yet are added to it; [None] is a file that
    could not be read, which is reported and changes nothing. *)
Definition godotenv_Load (file : option (gmap string string))
    (env : gmap string string) : bool * gmap string string :=
  match file with
  | None => (false, env)
  | Some vars => (true, env ∪ vars)
  end.

(** The data source name [InitDB] builds with [fmt.Sprintf]. *)
Definition data_source_name (env : gmap string string) : string :=
  let dbHost := getEnv env "DB_HOST" "localhost" in
  let dbPort := getEnv env "DB_PORT" "3306" in
  let dbUser := getEnv env "DB_USER" "root" in
  let dbPassword := getEnv env "DB_PASSWORD" "" in
  let dbName := getEnv env "DB_NAME" "hoctap_api" in
  dbUser ++ ":" ++ dbPassword ++ "@tcp(" ++ dbHost ++ ":" ++ dbPort ++ ")/"
  ++ dbName ++ "?charset=utf8mb4&parseTime=True&loc=Local".

(** A [*sql.DB]: what it was opened with, its pool limits (0 open
    connections is no limit, 2 idle ones the default) and whether it has been
    closed. *)
Record Handle := mkHandle {
  dataSourceName : string;
  MaxOpenConns : Z;
  MaxIdleConns : Z;
  closed : bool
}.

(** The database the data source names: whether it has a [users] table yet,
    and the server with its connection. *)
Record Site := mkSite { users_table : bool; world : World }.

(** The process: its environment, the package variable [DB] ([None] is
    [nil]) and the database. *)
Record Process := mkProcess {
  environ : gmap string string;
  DB : option Handle;
  site : Site
}.

(** What [InitDB] can return, by the message it wraps the cause in:
    ["failed to open database connection"], ["failed to ping database"],
    ["failed to create tables: failed to create users table"]. *)
Inductive init_error :=
| OpenFailed
| PingFailed (cause : sql_error)
| CreateTablesFailed (cause : sql_error).

(** The calls to [log] of connection.go and of the start of [main], by what
    they report. *)
Inductive log_event :=
| WarnNoConfigFile
| LogInitializing
| LogConnected (dsn : string)
| LogTablesVerified
| LogSeeding
| LogSeedWarning (err : error)
| LogSeeded
| LogFatal (err : init_error)
| LogClosed.

(** How the start of [main] ends: [log.Fatalf], or the server is started,
    with the seeding error it only warned about. *)
Inductive startup_result :=
| Fatal (err : init_error)
| Serving (seed_warning : option error).

(** [CREATE TABLE IF NOT EXISTS users (...)]: a new table is empty and its
    AUTO_INCREMENT counter starts at 1; an existing one is left alone. *)
Definition create_users_table (exists_ : bool) (s : Server)
  : (sql_error + exec_result) * Server :=
  (inr (mkResult 0 0),
   if exists_ then s else mkServer ∅ 1 (clock s)).

(** [func createTables() error] *)
Definition createTables (d : Site) : (sql_error + unit) * Site :=
  match Exec (create_users_table (users_table d)) (world d) with
  | (inl e, w') => (inl e, mkSite (users_table d) w')
  | (inr _, w') => (inr tt, mkSite true w')
  end.

(** [func CloseDB()]: [DB.Close()] when [DB] is not [nil]. *)
Definition CloseDB (p : Process) : list log_event * Process :=
  match DB p with
  | None => ([], p)
  | Some h =>
      ([LogClosed],
       mkProcess (environ p)
         (Some (mkHandle (dataSourceName h) (MaxOpenConns h) (MaxIdleConns h)
                  true))
         (site p))
  end.

(** Processes to run the start-up in: one before a database without the
    users table, with an empty environment, and one before the database that
    holds Ann, with a host set in the environment. *)
Definition fresh_process : Process :=
  mkProcess ∅ None (mkSite false (quiet 0)).


(** A driver that accepts every data source name. *)
Definition any_dsn (dsn : string) : bool := true.

(** ** The dashboard (script.js): the pattern of [isValidEmail] *)

(** Regular expressions over UTF-16 code units, the characters of a
    JavaScript string; only what the pattern of [isValidEmail] needs. *)
Inductive regex :=
| Never
| Epsilon
| OneOf (class : N -> bool)
| Then (r1 r2 : regex)
| Or (r1 r2 : regex)
| Many (r : regex).

(** [r+] *)
Definition at_least_once (r : regex) : regex := Then r (Many r).

(** The strings a regular expression stands for. *)
Inductive matches : regex -> list N -> Prop :=
| matches_epsilon : matches Epsilon []
| matches_one class c : class c = true -> matches (OneOf class) [c]
| matches_then r1 r2 s1 s2 :
    matches r1 s1 -> matches r2 s2 -> matches (Then r1 r2) (s1 ++ s2)
| matches_or_l r1 r2 s : matches r1 s -> matches (Or r1 r2) s
| matches_or_r r1 r2 s : matches r2 s -> matches (Or r1 r2) s
| matches_many_nil r : matches (Many r) []
| matches_many_more r s1 s2 :
    matches r s1 -> matches (Many r) s2 -> matches (Many r) (s1 ++ s2).

(** [RegExp.prototype.test] for a pattern anchored with [^] and [$]: the
    pattern is taken through the string one code unit at a time. *)
Fixpoint accepts_empty (r : regex) : bool :=
  match r with
  | Never => false
  | Epsilon => true
  | OneOf _ => false
  | Then r1 r2 => accepts_empty r1 && accepts_empty r2
  | Or r1 r2 => accepts_empty r1 || accepts_empty r2
  | Many _ => true
  end.

Fixpoint after (c : N) (r : regex) : regex :=
  match r with
  | Never => Never
  | Epsilon => Never
  | OneOf class => if class c then Epsilon else Never
  | Then r1 r2 =>
      Or (Then (after c r1) r2) (if accepts_empty r1 then after c r2 else Never)
  | Or r1 r2 => Or (after c r1) (after c r2)
  | Many r1 => Then (after c r1) (Many r1)
  end.

Definition test (r : regex) (s : list N) : bool :=
  accepts_empty (foldl (fun r c => after c r) r s).

(** The class [\s]: the white space and line terminators of ECMAScript. *)
Definition white_space (c : N) : bool :=
  ((9 <=? c) && (c <=? 13) || (c =? 32) || (c =? 160) || (c =? 5760)
   || (8192 <=? c) && (c <=? 8202) || (c =? 8232) || (c =? 8233)
   || (c =? 8239) || (c =? 8287) || (c =? 12288) || (c =? 65279))%N.

(** The class [[^\s@]]. *)
Definition not_space_or_at (c : N) : bool :=
  negb (white_space c || (c =? 64)%N).

(** [const emailRegex = /^[^\s@]+@[^\s@]+\.[^\s@]+$/] *)
Definition emailRegex : regex :=
  Then (at_least_once (OneOf not_space_or_at))
    (Then (OneOf (N.eqb 64))
       (Then (at_least_once (OneOf not_space_or_at))
          (Then (OneOf (N.eqb 46))
             (at_least_once (OneOf not_space_or_at))))).

(** [function isValidEmail(email)] *)
Definition isValidEmail (email : list N) : bool := test emailRegex email.

(** The code units of a string of ASCII characters. *)
Fixpoint code_units (s : string) : list N :=
  match s with
  | EmptyString => []
  | String c rest => N_of_ascii c :: code_units rest
  end.

(** Closes a goal whose hypotheses contradict one another once the
    existentials and conjunctions among them are opened. *)
Ltac refute :=
  intros;
  repeat match goal with
         | H : ex _ |- _ => destruct H
         | H : _ /\ _ |- _ => destruct H
         end;
  simplify_eq; congruence.

Section Repository.

(** The collation of the table ([utf8mb4_unicode_ci]) compares two strings by
    comparing their weight strings.  The weights are the server's business;
    the development is parametric in them. *)
Variable weight_string : string -> string.

Definition same_email (a b : string) : Prop :=
  weight_string a = weight_string b.

#[global] Instance same_email_dec : RelDecision same_email.
Proof. intros a b. unfold same_email. apply _. Defined.

(** The UNIQUE index on [email], as the server consults it. *)
Definition email_in_use (email : string) (m : gmap Z Row) : Prop :=
  map_Exists (fun _ r => same_email (r_email r) email) m.

Definition email_in_use_by_other (email : string) (id : Z) (m : gmap Z Row)
  : Prop :=
  map_Exists (fun i r => same_email (r_email r) email /\ i <> id) m.

(** *** The statements of user.go, as the server runs them *)

(** [SELECT id, name, email, created_at, updated_at FROM users
     ORDER BY created_at DESC] *)
Definition select_users (s : Server) : list User :=
  order_by_created_at_desc (to_user <$> map_to_list (users s)).

(** [SELECT id, name, email, created_at, updated_at FROM users WHERE id = ?] *)
Definition select_user_where_id (id : Z) (s : Server) : list User :=
  match users s !! id with
  | Some r => [to_user (id, r)]
  | None => []
  end.

(** [SELECT COUNT( * ) FROM users] *)
Definition select_count (s : Server) : list Z :=
  [Z.of_nat (size (users s))].

(** [SELECT COUNT( * ) FROM users WHERE email = ?] *)
Definition select_count_where_email (email : string) (s : Server) : list Z :=
  [Z.of_nat (size (filter (fun kv : Z * Row => same_email (r_email kv.2) email)
                          (users s)))].

(** [SELECT COUNT( * ) FROM users WHERE email = ? AND id != ?] *)
Definition select_count_where_email_and_id_ne (email : string) (id : Z)
    (s : Server) : list Z :=
  [Z.of_nat (size (filter (fun kv : Z * Row =>
                             same_email (r_email kv.2) email /\ kv.1 <> id)
                          (users s)))].

(** [INSERT INTO users (name, email) VALUES (?, ?)]: the id comes from
    AUTO_INCREMENT, both timestamps default to [CURRENT_TIMESTAMP].  The row
    has to pass the PRIMARY KEY on [id] and the UNIQUE index on [email];
    InnoDB hands out the counter value before it checks the keys, so a
    rejected duplicate still uses up an id. *)
Definition insert_user (name email : string) (s : Server)
  : (sql_error + exec_result) * Server :=
  if negb (varchar255 name && varchar255 email) then (inl ErrDataTooLong, s)
  else
    let id := auto_increment s in
    let taken := mkServer (users s) (id + 1) (clock s) in
    if decide (is_Some (users s !! id)) then (inl ErrDuplicateEntry, taken)
    else if decide (email_in_use email (users s))
    then (inl ErrDuplicateEntry, taken)
    else (inr (mkResult id 1),
          mkServer (<[id := mkRow name email (clock s) (clock s)]> (users s))
                   (id + 1) (clock s)).

(** [UPDATE users SET name = ?, email = ?, updated_at = CURRENT_TIMESTAMP
     WHERE id = ?]: no matching row is not an error; the number of affected
     rows counts rows that really changed. *)
Definition update_user (name email : string) (id : Z) (s : Server)
  : (sql_error + exec_result) * Server :=
  match users s !! id with
  | None => (inr (mkResult 0 0), s)
  | Some r =>
      if negb (varchar255 name && varchar255 email) then (inl ErrDataTooLong, s)
      else if decide (email_in_use_by_other email id (users s))
      then (inl ErrDuplicateEntry, s)
      else
        let r' := mkRow name email (r_created_at r) (clock s) in
        (inr (mkResult 0 (if decide (r' = r) then 0 else 1)),
         mkServer (<[id := r']> (users s)) (auto_increment s) (clock s))
  end.

(** [DELETE FROM users WHERE id = ?] *)
Definition delete_user (id : Z) (s : Server)
  : (sql_error + exec_result) * Server :=
  match users s !! id with
  | None => (inr (mkResult 0 0), s)
  | Some _ =>
      (inr (mkResult 0 1),
       mkServer (delete id (users s)) (auto_increment s) (clock s))
  end.

(** *** The repository (user.go) *)

(** [func (ur *UserRepository) GetAllUsers() ([]User, error)].  A failure of
    the query, of a [Scan] or of the iteration all end in an error of the
    same family; they are one fault of the round trip here. *)
Definition GetAllUsers : Repo (list User) :=
  failed_to "failed to query users" (Query select_users).

(** [func (ur *UserRepository) GetUserByID(id int) ( *User, error)] *)
Definition GetUserByID (id : Z) : Repo User :=
  fun w =>
    match QueryRow (select_user_where_id id) w with
    | (inl ErrNoRows, w') => (inl (NotFoundError id), w')
    | (inl e, w') => (inl (QueryError "failed to get user" e), w')
    | (inr u, w') => (inr u, w')
    end.

(** [func (ur *UserRepository) emailExists(email string) (bool, error)] *)
Definition emailExists (email : string) : Sql bool :=
  fun w =>
    match QueryRow (select_count_where_email email) w with
    | (inl e, w') => (inl e, w')
    | (inr count, w') => (inr (0 <? count), w')
    end.

(** [func (ur *UserRepository) emailExistsForOtherUser(email string,
     userID int) (bool, error)] *)
Definition emailExistsForOtherUser (email : string) (userID : Z) : Sql bool :=
  fun w =>
    match QueryRow (select_count_where_email_and_id_ne email userID) w with
    | (inl e, w') => (inl e, w')
    | (inr count, w') => (inr (0 <? count), w')
    end.

(** [func (ur *UserRepository) CreateUser(name, email string) ( *User, error)].
    [result.LastInsertId()] cannot fail with this driver, and [int(id)] is
    the identity on the ids of an INT column. *)
Definition CreateUser (name email : string) : Repo User :=
  let* exists_ :=
    failed_to "failed to check email existence" (emailExists email) in
  if (exists_ : bool) then throw (ConflictError email)
  else
    let* result :=
      failed_to "failed to create user" (Exec (insert_user name email)) in
    GetUserByID (LastInsertId result).

(** [func (ur *UserRepository) UpdateUser(id int, name, email string)
     ( *User, error)] *)
Definition UpdateUser (id : Z) (name email : string) : Repo User :=
  let* _ := GetUserByID id in
  let* exists_ :=
    failed_to "failed to check email existence"
      (emailExistsForOtherUser email id) in
  if (exists_ : bool) then throw (ConflictError email)
  else
    let* _ :=
      failed_to "failed to update user" (Exec (update_user name email id)) in
    GetUserByID id.

(** [func (ur *UserRepository) DeleteUser(id int) error].
    [result.RowsAffected()] cannot fail with this driver. *)
Definition DeleteUser (id : Z) : Repo unit :=
  let* _ := GetUserByID id in
  let* result := failed_to "failed to delete user" (Exec (delete_user id)) in
  if RowsAffected result =? 0 then throw (NotFoundError id)
  else ret tt.

(** [func (ur *UserRepository) GetUsersCount() (int, error)] *)
Definition GetUsersCount : Repo Z :=
  failed_to "failed to count users" (QueryRow select_count).

(** The [initialUsers] literal of [SeedUsers]. *)
Definition initialUsers : list (string * string) :=
  [ ("John Doe", "john@example.com");
    ("Jane Smith", "jane@example.com");
    ("Alice Johnson", "alice@example.com") ].

(** The [for _, user := range initialUsers] loop. *)
Fixpoint seed_loop (l : list (string * string)) : Repo unit :=
  match l with
  | [] => ret tt
  | (name, email) :: rest =>
      fun w =>
        match CreateUser name email w with
        | (inl err, w') => (inl (SeedError name err), w')
        | (inr _, w') => seed_loop rest w'
        end
  end.

(** [func (ur *UserRepository) SeedUsers() error] *)
Definition SeedUsers : Repo unit :=
  let* count := GetUsersCount in
  if 0 <? count then ret tt else seed_loop initialUsers.

(** The table a seeding leaves when it starts from an empty table whose
    counter stands at [a] and inserts at times [t1], [t2], [t3]. *)
Definition seeded_table (a t1 t2 t3 : Z) : gmap Z Row :=
  <[a + 2 := mkRow "Alice Johnson" "alice@example.com" t3 t3]>
    (<[a + 1 := mkRow "Jane Smith" "jane@example.com" t2 t2]>
       (<[a := mkRow "John Doe" "john@example.com" t1 t1]> ∅)).

(** The collation tells the seed addresses apart. *)
Definition seeds_distinct : Prop :=
  NoDup ((fun p : string * string => weight_string p.2) <$> initialUsers).

#[global] Instance seeds_distinct_dec : Decision seeds_distinct.
Proof. unfold seeds_distinct. apply _. Defined.

(** *** The handlers (main.go) *)

(** Library functions the handlers call; the development does not depend on
    what they compute:
    - [strconv.Atoi] ([None] when it returns an error),
    - [json.NewDecoder(r.Body).Decode(&userData)], giving the [Name] and
      [Email] fields ([None] when it returns an error),
    - the [%d] verb of [fmt],
    - the text of a driver error. *)
Variable Atoi : string -> option Z.
Variable decode_user_data : string -> option (string * string).
Variable itoa : Z -> string.
Variable driver_text : sql_error -> string.

(** [err.Error()] for the errors user.go builds with [fmt.Errorf]. *)
Fixpoint Error (e : error) : string :=
  match e with
  | NotFoundError id => "user with ID " ++ itoa id ++ " not found"
  | ConflictError email => "user with email '" ++ email ++ "' already exists"
  | QueryError context cause => context ++ ": " ++ driver_text cause
  | SeedError name cause => "failed to seed user " ++ name ++ ": " ++ Error cause
  end.

(** [func getUsersHandler(w http.ResponseWriter, r *http.Request)] *)
Definition getUsersHandler (now : Z) (w : World) : Outcome * World :=
  match GetAllUsers w with
  | (inl err, w') =>
      (mkOutcome ["Error getting users: " ++ Error err]
         (sendJSONResponse now StatusInternalServerError
            "Failed to retrieve users" NoData), w')
  | (inr users, w') =>
      (mkOutcome []
         (sendJSONResponse now StatusOK "Users retrieved successfully"
            (UsersData users)), w')
  end.

(** [func getUserByIDHandler(w http.ResponseWriter, r *http.Request)] *)
Definition getUserByIDHandler (r : Request) (now : Z) (w : World)
  : Outcome * World :=
  match Atoi (vars_id r) with
  | None =>
      (mkOutcome []
         (sendJSONResponse now StatusBadRequest "Invalid user ID" NoData), w)
  | Some userID =>
      match GetUserByID userID w with
      | (inl err, w') =>
          (mkOutcome ["Error getting user by ID " ++ itoa userID ++ ": "
                      ++ Error err]
             (sendJSONResponse now StatusNotFound "User not found" NoData),
           w')
      | (inr user, w') =>
          (mkOutcome []
             (sendJSONResponse now StatusOK "User found" (UserData user)),
           w')
      end
  end.

(** [func createUserHandler(w http.ResponseWriter, r *http.Request)] *)
Definition createUserHandler (r : Request) (now : Z) (w : World)
  : Outcome * World :=
  match decode_user_data (body r) with
  | None =>
      (mkOutcome []
         (sendJSONResponse now StatusBadRequest "Invalid JSON format" NoData),
       w)
  | Some (name, email) =>
      if bool_decide (name = "") || bool_decide (email = "")
      then (mkOutcome []
              (sendJSONResponse now StatusBadRequest
                 "Name and email are required" NoData), w)
      else
        match CreateUser name email w with
        | (inl err, w') =>
            (mkOutcome ["Error creating user: " ++ Error err]
               (if bool_decide (Error err = "user with email '" ++ email
                                            ++ "' already exists")
                then sendJSONResponse now StatusConflict (Error err) NoData
                else sendJSONResponse now StatusInternalServerError
                       "Failed to create user" NoData), w')
        | (inr user, w') =>
            (mkOutcome []
               (sendJSONResponse now StatusCreated "User created successfully"
                  (UserData user)), w')
        end
  end.

(** [func updateUserHandler(w http.ResponseWriter, r *http.Request)] *)
Definition updateUserHandler (r : Request) (now : Z) (w : World)
  : Outcome * World :=
  match Atoi (vars_id r) with
  | None =>
      (mkOutcome []
         (sendJSONResponse now StatusBadRequest "Invalid user ID" NoData), w)
  | Some userID =>
      match decode_user_data (body r) with
      | None =>
          (mkOutcome []
             (sendJSONResponse now StatusBadRequest "Invalid JSON format"
                NoData), w)
      | Some (name, email) =>
          if bool_decide (name = "") || bool_decide (email = "")
          then (mkOutcome []
                  (sendJSONResponse now StatusBadRequest
                     "Name and email are required" NoData), w)
          else
            match UpdateUser userID name email w with
            | (inl err, w') =>
                (mkOutcome ["Error updating user: " ++ Error err]
                   (if bool_decide (Error err = "user with ID " ++ itoa userID
                                                ++ " not found")
                    then sendJSONResponse now StatusNotFound (Error err) NoData
                    else if bool_decide (Error err = "user with email '"
                                           ++ email ++ "' already exists")
                    then sendJSONResponse now StatusConflict (Error err) NoData
                    else sendJSONResponse now StatusInternalServerError
                           "Failed to update user" NoData), w')
            | (inr user, w') =>
                (mkOutcome []
                   (sendJSONResponse now StatusOK "User updated successfully"
                      (UserData user)), w')
            end
      end
  end.

(** [func deleteUserHandler(w http.ResponseWriter, r *http.Request)] *)
Definition deleteUserHandler (r : Request) (now : Z) (w : World)
  : Outcome * World :=
  match Atoi (vars_id r) with
  | None =>
      (mkOutcome []
         (sendJSONResponse now StatusBadRequest "Invalid user ID" NoData), w)
  | Some userID =>
      match DeleteUser userID w with
      | (inl err, w') =>
          (mkOutcome ["Error deleting user: " ++ Error err]
             (if bool_decide (Error err = "user with ID " ++ itoa userID
                                          ++ " not found")
              then sendJSONResponse now StatusNotFound (Error err) NoData
              else sendJSONResponse now StatusInternalServerError
                     "Failed to delete user" NoData), w')
      | (inr _, w') =>
          (mkOutcome []
             (sendJSONResponse now StatusOK "User deleted successfully"
                NoData), w')
      end
  end.

(** [func getUsersStatsHandler(w http.ResponseWriter, r *http.Request)];
    [stamp] is the reading of [time.Now()] put in the statistics, [now] the
    later one of [sendJSONResponse]. *)
Definition getUsersStatsHandler (stamp now : Z) (w : World)
  : Outcome * World :=
  match GetUsersCount w with
  | (inl err, w') =>
      (mkOutcome ["Error getting users count: " ++ Error err]
         (sendJSONResponse now StatusInternalServerError
            "Failed to get users statistics" NoData), w')
  | (inr count, w') =>
      (mkOutcome []
         (sendJSONResponse now StatusOK
            "Users statistics retrieved successfully"
            (StatsData count stamp)), w')
  end.

(** [func healthHandler(w http.ResponseWriter, r *http.Request)]; the
    argument is [database.DB], [None] when it is [nil]. *)
Definition healthHandler (stamp now : Z) (db : option World)
  : Outcome * option World :=
  let '(dbStatus, db') :=
    match db with
    | None => ("disconnected", None)
    | Some w =>
        match Ping w with
        | (inl err, w') => ("error: " ++ driver_text err, Some w')
        | (inr _, w') => ("healthy", Some w')
        end
    end in
  (mkOutcome []
     (sendJSONResponse now StatusOK "API is running successfully"
        (HealthData "healthy" "1.0.0" dbStatus stamp)), db').

(** *** Starting up (connection.go, main.go) *)

(** Whether the driver accepts a data source name ([sql.Open] connects to
    nothing, it only parses). *)
Variable dsn_ok : string -> bool.

(** [func InitDB() error], with the content of config.env as argument.
    [DB.SetMaxOpenConns(25)] and [DB.SetMaxIdleConns(10)] are the two pool
    limits of the handle. *)
Definition InitDB (file : option (gmap string string)) (p : Process)
  : (list log_event * option init_error) * Process :=
  let '(loaded, env) := godotenv_Load file (environ p) in
  let warning := if loaded then [] else [WarnNoConfigFile] in
  let dsn := data_source_name env in
  if negb (dsn_ok dsn)
  then ((warning, Some OpenFailed), mkProcess env None (site p))
  else
    let opened := mkHandle dsn 0 2 false in
    match Ping (world (site p)) with
    | (inl e, w') =>
        ((warning, Some (PingFailed e)),
         mkProcess env (Some opened) (mkSite (users_table (site p)) w'))
    | (inr _, w') =>
        let pooled := mkHandle dsn 25 10 false in
        match createTables (mkSite (users_table (site p)) w') with
        | (inl e, d') =>
            (((warning ++ [LogConnected dsn])%list, Some (CreateTablesFailed e)),
             mkProcess env (Some pooled) d')
        | (inr _, d') =>
            (((warning ++ [LogConnected dsn; LogTablesVerified])%list, None),
             mkProcess env (Some pooled) d')
        end
    end.

(** [func main()] up to the point where the router is built: load
    config.env, [InitDB] (fatal when it fails), [SeedUsers] (a warning when
    it fails). *)
Definition startup (file : option (gmap string string)) (p : Process)
  : (list log_event * startup_result) * Process :=
  let '(loaded, env) := godotenv_Load file (environ p) in
  let warning := if loaded then [] else [WarnNoConfigFile] in
  match InitDB file (mkProcess env (DB p) (site p)) with
  | ((logs, Some err), p1) =>
      (((warning ++ [LogInitializing] ++ logs ++ [LogFatal err])%list,
        Fatal err), p1)
  | ((logs, None), p1) =>
      match SeedUsers (world (site p1)) with
      | (inl err, w') =>
          (((warning ++ [LogInitializing] ++ logs
               ++ [LogSeeding; LogSeedWarning err])%list, Serving (Some err)),
           mkProcess (environ p1) (DB p1) (mkSite (users_table (site p1)) w'))
      | (inr _, w') =>
          (((warning ++ [LogInitializing] ++ logs
               ++ [LogSeeding; LogSeeded])%list, Serving None),
           mkProcess (environ p1) (DB p1) (mkSite (users_table (site p1)) w'))
      end
  end.

(** *** Sequences of writes *)

Definition perform (rq : request) : Repo unit :=
  match rq with
  | Create name email => let* _ := CreateUser name email in ret tt
  | Update id name email => let* _ := UpdateUser id name email in ret tt
  | Delete id => DeleteUser id
  end.

(** A sequence of requests, each of which has to succeed for the next one
    to be sent. *)
Fixpoint perform_all (rqs : list request) : Repo unit :=
  match rqs with
  | [] => ret tt
  | rq :: rest => let* _ := perform rq in perform_all rest
  end.

(** The world a call leaves, whatever the call returned. *)
Definition run_call (c : call) (w : World) : World :=
  match c with
  | CallGetAllUsers => (GetAllUsers w).2
  | CallGetUserByID id => (GetUserByID id w).2
  | CallCreateUser name email => (CreateUser name email w).2
  | CallUpdateUser id name email => (UpdateUser id name email w).2
  | CallDeleteUser id => (DeleteUser id w).2
  | CallGetUsersCount => (GetUsersCount w).2
  | CallSeedUsers => (SeedUsers w).2
  end.

(** Calls made one after another, each one whatever the one before
    returned. *)
Definition run_calls (cs : list call) (w : World) : World :=
  foldl (fun w c => run_call c w) w cs.

(** *** Invariants of the table *)

(** No two rows share an email, in the sense of the column's collation. *)
Definition emails_unique (m : gmap Z Row) : Prop :=
  map_Forall (fun i r =>
    map_Forall (fun j r' => same_email (r_email r) (r_email r') -> i = j) m) m.

(** No two rows hold the very same string as email. *)
Definition emails_distinct (m : gmap Z Row) : Prop :=
  map_Forall (fun i r =>
    map_Forall (fun j r' => r_email r = r_email r' -> i = j) m) m.

(** Ids are positive and below the AUTO_INCREMENT counter. *)
Definition ids_allocated (s : Server) : Prop :=
  0 < auto_increment s /\
  map_Forall (fun i _ => 0 < i < auto_increment s) (users s).

(** No row is stamped in the future, and never updated before created. *)
Definition timestamps_ordered (s : Server) : Prop :=
  map_Forall (fun _ r => r_created_at r <= r_updated_at r <= clock s) (users s).

#[global] Instance emails_unique_dec m : Decision (emails_unique m).
Proof. unfold emails_unique. apply _. Defined.

#[global] Instance emails_distinct_dec m : Decision (emails_distinct m).
Proof. unfold emails_distinct. apply _. Defined.

#[global] Instance ids_allocated_dec s : Decision (ids_allocated s).
Proof. unfold ids_allocated. apply _. Defined.

#[global] Instance timestamps_ordered_dec s : Decision (timestamps_ordered s).
Proof. unfold timestamps_ordered. apply _. Defined.

#[global] Instance email_in_use_dec email m : Decision (email_in_use email m).
Proof. unfold email_in_use. apply _. Defined.

#[global] Instance email_in_use_by_other_dec email id m :
  Decision (email_in_use_by_other email id m).
Proof. unfold email_in_use_by_other. apply _. Defined.

(** A computation keeps a property of the server, whatever it returns. *)
Definition keeps {A} (P : Server -> Prop) (m : World -> A * World) : Prop :=
  forall w r w', m w = (r, w') -> P (server w) -> P (server w').

(** ** The driver layer *)

Lemma users_arrives (w : World) : users (arrives w) = users (server w).
Proof. unfold arrives. by destruct (pending w) as [|[dt|] rest]. Qed.

Lemma auto_increment_arrives (w : World) :
  auto_increment (arrives w) = auto_increment (server w).
Proof. unfold arrives. by destruct (pending w) as [|[dt|] rest]. Qed.

Lemma clock_arrives (w : World) : clock (server w) <= clock (arrives w).
Proof.
  unfold arrives. destruct (pending w) as [|[dt|] rest]; simpl; lia.
Qed.

Lemma calm_next (n : nat) (w : World) :
  calm (S n) (pending w) = true ->
  faulty w = false /\ calm n (tail (pending w)) = true.
Proof.
  unfold faulty. destruct (pending w) as [|[dt|] rest]; simpl; try done.
  by destruct n.
Qed.

Lemma calm_weaken (n : nat) (env : list event) :
  calm (S n) env = true -> calm n env = true.
Proof.
  revert env. induction n as [|n IH]; intros env; [done|].
  destruct env as [|[dt|] rest]; simpl; try done. apply IH.
Qed.

(** A [COUNT( * )] probe is positive exactly when some row matches. *)
Lemma probe_positive (P : Z * Row -> Prop) `{!forall x, Decision (P x)}
    (m : gmap Z Row) :
  (0 <? Z.of_nat (size (filter P m))) = true <->
  map_Exists (fun i r => P (i, r)) m.
Proof.
  rewrite Z.ltb_lt. split.
  - intros Hpos.
    destruct (map_choose (filter P m)) as (i & r & Hir).
    { intros Hempty. rewrite Hempty, map_size_empty in Hpos. lia. }
    apply map_lookup_filter_Some in Hir as [Hi HP].
    by exists i, r.
  - intros (i & r & Hi & HP).
    assert (size (filter P m) <> 0%nat); [|lia].
    apply map_size_ne_0_lookup. exists i.
    exists r. by apply map_lookup_filter_Some.
Qed.

Lemma bool_decide_of_iff (b : bool) (P : Prop) `{!Decision P} :
  (b = true <-> P) -> b = bool_decide P.
Proof.
  intros Hiff. case_bool_decide as HP.
  - by apply Hiff.
  - destruct b; [|done]. exfalso. by apply HP, Hiff.
Qed.

Lemma emailExists_eq (email : string) (w : World) :
  emailExists email w =
    if faulty w then (inl ErrBadConn, next w (server w))
    else (inr (bool_decide (email_in_use email (users (server w)))),
          next w (arrives w)).
Proof.
  unfold emailExists, QueryRow, roundtrip, select_count_where_email.
  destruct (faulty w); [done|]. simpl. do 2 f_equal.
  rewrite users_arrives. apply bool_decide_of_iff.
  by rewrite probe_positive.
Qed.

Lemma emailExistsForOtherUser_eq (email : string) (id : Z) (w : World) :
  emailExistsForOtherUser email id w =
    if faulty w then (inl ErrBadConn, next w (server w))
    else (inr (bool_decide (email_in_use_by_other email id (users (server w)))),
          next w (arrives w)).
Proof.
  unfold emailExistsForOtherUser, QueryRow, roundtrip,
    select_count_where_email_and_id_ne.
  destruct (faulty w); [done|]. simpl. do 2 f_equal.
  rewrite users_arrives. apply bool_decide_of_iff.
  by rewrite probe_positive.
Qed.

Lemma GetUserByID_eq (id : Z) (w : World) :
  GetUserByID id w =
    if faulty w
    then (inl (QueryError "failed to get user" ErrBadConn),
          next w (server w))
    else (match users (server w) !! id with
          | Some r => inr (to_user (id, r))
          | None => inl (NotFoundError id)
          end, next w (arrives w)).
Proof.
  unfold GetUserByID, QueryRow, roundtrip, select_user_where_id.
  destruct (faulty w); [done|]. rewrite users_arrives.
  by destruct (users (server w) !! id).
Qed.

Lemma GetUsersCount_eq (w : World) :
  GetUsersCount w =
    if faulty w
    then (inl (QueryError "failed to count users" ErrBadConn),
          next w (server w))
    else (inr (Z.of_nat (size (users (server w)))),
          next w (arrives w)).
Proof.
  unfold GetUsersCount, failed_to, QueryRow, roundtrip, select_count.
  destruct (faulty w); [done|]. simpl. by rewrite users_arrives.
Qed.

Lemma GetAllUsers_eq (w : World) :
  GetAllUsers w =
    if faulty w
    then (inl (QueryError "failed to query users" ErrBadConn),
          next w (server w))
    else (inr (select_users (server w)),
          next w (arrives w)).
Proof.
  unfold GetAllUsers, failed_to, Query, roundtrip, select_users.
  destruct (faulty w); [done|]. simpl. by rewrite users_arrives.
Qed.

(** ** Properties of the server that every call keeps *)

Section Keeps.
Context (P : Server -> Prop).

(** [P] does not mind time passing. *)
Hypothesis P_advance : forall dt s, P s -> P (advance dt s).

Lemma keeps_arrives (w : World) : P (server w) -> P (arrives w).
Proof.
  unfold arrives. destruct (pending w) as [|[dt|] rest]; auto.
Qed.

Lemma keeps_roundtrip {A} (stmt : Server -> (sql_error + A) * Server) :
  (forall s r s', stmt s = (r, s') -> P s -> P s') ->
  keeps P (roundtrip stmt).
Proof.
  intros Hstmt w r w' Hrun HP. unfold roundtrip in Hrun.
  destruct (faulty w).
  - by inversion Hrun; subst.
  - destruct (stmt (arrives w)) as [r0 s'] eqn:Hs.
    inversion Hrun; subst; simpl.
    eapply Hstmt; [done|]. by apply keeps_arrives.
Qed.

Lemma keeps_QueryRow {A} (q : Server -> list A) : keeps P (QueryRow q).
Proof.
  apply keeps_roundtrip. intros s r s' Hq.
  by destruct (q s); inversion Hq; subst.
Qed.

Lemma keeps_ret {A} (a : A) : keeps P (ret a).
Proof. intros w r w' Hrun. by inversion Hrun; subst. Qed.

Lemma keeps_throw {A} (e : error) : keeps P (@throw A e).
Proof. intros w r w' Hrun. by inversion Hrun; subst. Qed.

Lemma keeps_bind {A B} (m : Repo A) (k : A -> Repo B) :
  keeps P m -> (forall a, keeps P (k a)) -> keeps P (bind m k).
Proof.
  intros Hm Hk w r w' Hrun HP. unfold bind in Hrun.
  destruct (m w) as [[e|a] w1] eqn:Hmw.
  - inversion Hrun; subst. by eapply Hm.
  - eapply Hk; [done|]. by eapply Hm.
Qed.

Lemma keeps_failed_to {A} (context : string) (m : Sql A) :
  keeps P m -> keeps P (failed_to context m).
Proof.
  intros Hm w r w' Hrun HP. unfold failed_to in Hrun.
  destruct (m w) as [[e|a] w1] eqn:Hmw; inversion Hrun; subst;
    by eapply Hm.
Qed.

Lemma keeps_GetUserByID (id : Z) : keeps P (GetUserByID id).
Proof.
  intros w r w' Hrun HP. unfold GetUserByID in Hrun.
  destruct (QueryRow (select_user_where_id id) w) as [r0 w0] eqn:Hq.
  pose proof (keeps_QueryRow _ _ _ _ Hq HP) as HP'.
  by destruct r0 as [[]|]; inversion Hrun; subst.
Qed.

Lemma keeps_emailExists (email : string) : keeps P (emailExists email).
Proof.
  intros w r w' Hrun HP. unfold emailExists in Hrun.
  destruct (QueryRow (select_count_where_email email) w) as [r0 w0] eqn:Hq.
  pose proof (keeps_QueryRow _ _ _ _ Hq HP) as HP'.
  by destruct r0; inversion Hrun; subst.
Qed.

Lemma keeps_emailExistsForOtherUser (email : string) (id : Z) :
  keeps P (emailExistsForOtherUser email id).
Proof.
  intros w r w' Hrun HP. unfold emailExistsForOtherUser in Hrun.
  destruct (QueryRow (select_count_where_email_and_id_ne email id) w)
    as [r0 w0] eqn:Hq.
  pose proof (keeps_QueryRow _ _ _ _ Hq HP) as HP'.
  by destruct r0; inversion Hrun; subst.
Qed.

Lemma keeps_GetUsersCount : keeps P GetUsersCount.
Proof. apply keeps_failed_to, keeps_QueryRow. Qed.

(** The three writes keep [P] as soon as the three statements do. *)
Hypothesis insert_keeps : forall name email s r s',
  insert_user name email s = (r, s') -> P s -> P s'.
Hypothesis update_keeps : forall name email id s r s',
  update_user name email id s = (r, s') -> P s -> P s'.
Hypothesis delete_keeps : forall id s r s',
  delete_user id s = (r, s') -> P s -> P s'.

Lemma keeps_CreateUser (name email : string) :
  keeps P (CreateUser name email).
Proof.
  unfold CreateUser. apply keeps_bind.
  - apply keeps_failed_to, keeps_emailExists.
  - intros [|]; [apply keeps_throw|]. apply keeps_bind.
    + apply keeps_failed_to, keeps_roundtrip, insert_keeps.
    + intros res. apply keeps_GetUserByID.
Qed.

Lemma keeps_UpdateUser (id : Z) (name email : string) :
  keeps P (UpdateUser id name email).
Proof.
  unfold UpdateUser. apply keeps_bind; [apply keeps_GetUserByID|].
  intros _. apply keeps_bind.
  - apply keeps_failed_to, keeps_emailExistsForOtherUser.
  - intros [|]; [apply keeps_throw|]. apply keeps_bind.
    + apply keeps_failed_to, keeps_roundtrip, update_keeps.
    + intros _. apply keeps_GetUserByID.
Qed.

Lemma keeps_DeleteUser (id : Z) : keeps P (DeleteUser id).
Proof.
  unfold DeleteUser. apply keeps_bind; [apply keeps_GetUserByID|].
  intros _. apply keeps_bind.
  - apply keeps_failed_to, keeps_roundtrip, delete_keeps.
  - intros res. destruct (RowsAffected res =? 0);
      [apply keeps_throw | apply keeps_ret].
Qed.

Lemma keeps_perform (rq : request) : keeps P (perform rq).
Proof.
  destruct rq as [name email | id name email | id]; simpl.
  - apply keeps_bind; [apply keeps_CreateUser | intros; apply keeps_ret].
  - apply keeps_bind; [apply keeps_UpdateUser | intros; apply keeps_ret].
  - apply keeps_DeleteUser.
Qed.

Lemma keeps_perform_all (rqs : list request) : keeps P (perform_all rqs).
Proof.
  induction rqs as [|rq rest IH]; simpl.
  - apply keeps_ret.
  - apply keeps_bind; [apply keeps_perform | intros; apply IH].
Qed.

Lemma keeps_seed_loop (l : list (string * string)) : keeps P (seed_loop l).
Proof.
  induction l as [|[name email] rest IH]; simpl.
  - apply keeps_ret.
  - intros w r w' Hrun HP.
    destruct (CreateUser name email w) as [[e|u] w1] eqn:Hc.
    + inversion Hrun; subst. by eapply keeps_CreateUser.
    + eapply IH; [done|]. by eapply keeps_CreateUser.
Qed.

Lemma keeps_SeedUsers : keeps P SeedUsers.
Proof.
  unfold SeedUsers. apply keeps_bind; [apply keeps_GetUsersCount|].
  intros count. destruct (0 <? count);
    [apply keeps_ret | apply keeps_seed_loop].
Qed.

Lemma keeps_GetAllUsers : keeps P GetAllUsers.
Proof.
  apply keeps_failed_to, keeps_roundtrip. by intros s r s' [= <- <-].
Qed.

Lemma keeps_run_call (c : call) (w : World) :
  P (server w) -> P (server (run_call c w)).
Proof.
  intros HP. destruct c as [|id|name email|id name email|id| |]; simpl.
  - by eapply keeps_GetAllUsers; [apply surjective_pairing|].
  - by eapply keeps_GetUserByID; [apply surjective_pairing|].
  - by eapply keeps_CreateUser; [apply surjective_pairing|].
  - by eapply keeps_UpdateUser; [apply surjective_pairing|].
  - by eapply keeps_DeleteUser; [apply surjective_pairing|].
  - by eapply keeps_GetUsersCount; [apply surjective_pairing|].
  - by eapply keeps_SeedUsers; [apply surjective_pairing|].
Qed.

Lemma keeps_run_calls (cs : list call) (w : World) :
  P (server w) -> P (server (run_calls cs w)).
Proof.
  revert w. induction cs as [|c rest IH]; intros w HP; [done|].
  simpl. by apply IH, keeps_run_call.
Qed.
End Keeps.

(** ** The UNIQUE index does its work *)

Lemma not_in_use_by_other_lookup (email : string) (id : Z) (m : gmap Z Row)
    (i : Z) (r : Row) :
  ~ email_in_use_by_other email id m -> m !! i = Some r -> i <> id ->
  ~ same_email (r_email r) email.
Proof. intros Hfree Hi Hne Hsame. apply Hfree. by exists i, r. Qed.

(** A row whose email no other row has can be put in the table. *)
Lemma emails_unique_insert (m : gmap Z Row) (id : Z) (r : Row) :
  ~ email_in_use_by_other (r_email r) id m ->
  emails_unique m -> emails_unique (<[id := r]> m).
Proof.
  intros Hfree Huniq i ri Hi j rj Hj Hsame.
  destruct (decide (i = id)) as [->|Hi_ne], (decide (j = id)) as [->|Hj_ne];
    try done.
  - rewrite lookup_insert_eq in Hi. rewrite lookup_insert_ne in Hj by done.
    inversion Hi; subst.
    by destruct (not_in_use_by_other_lookup _ _ _ _ _ Hfree Hj Hj_ne).
  - rewrite lookup_insert_eq in Hj. rewrite lookup_insert_ne in Hi by done.
    inversion Hj; subst.
    by destruct (not_in_use_by_other_lookup _ _ _ _ _ Hfree Hi Hi_ne).
  - rewrite lookup_insert_ne in Hi, Hj by done. by eapply Huniq.
Qed.

Lemma emails_distinct_insert (m : gmap Z Row) (id : Z) (r : Row) :
  ~ email_in_use_by_other (r_email r) id m ->
  emails_distinct m -> emails_distinct (<[id := r]> m).
Proof.
  intros Hfree Hdist i ri Hi j rj Hj Hsame.
  destruct (decide (i = id)) as [->|Hi_ne], (decide (j = id)) as [->|Hj_ne];
    try done.
  - rewrite lookup_insert_eq in Hi. rewrite lookup_insert_ne in Hj by done.
    inversion Hi; subst.
    destruct (not_in_use_by_other_lookup _ _ _ _ _ Hfree Hj Hj_ne).
    unfold same_email. by rewrite Hsame.
  - rewrite lookup_insert_eq in Hj. rewrite lookup_insert_ne in Hi by done.
    inversion Hj; subst.
    destruct (not_in_use_by_other_lookup _ _ _ _ _ Hfree Hi Hi_ne).
    unfold same_email. by rewrite Hsame.
  - rewrite lookup_insert_ne in Hi, Hj by done. by eapply Hdist.
Qed.

Lemma in_use_by_other_in_use (email : string) (id : Z) (m : gmap Z Row) :
  email_in_use_by_other email id m -> email_in_use email m.
Proof. intros (i & r & Hi & Hsame & _). by exists i, r. Qed.

Lemma emails_unique_delete (m : gmap Z Row) (id : Z) :
  emails_unique m -> emails_unique (delete id m).
Proof.
  intros Huniq i ri Hi j rj Hj.
  apply lookup_delete_Some in Hi as [_ Hi], Hj as [_ Hj]. by eapply Huniq.
Qed.

Lemma emails_distinct_delete (m : gmap Z Row) (id : Z) :
  emails_distinct m -> emails_distinct (delete id m).
Proof.
  intros Hdist i ri Hi j rj Hj.
  apply lookup_delete_Some in Hi as [_ Hi], Hj as [_ Hj]. by eapply Hdist.
Qed.

(** What a statement that went through has done to the table. *)
Lemma insert_user_ok (name email : string) (s s' : Server) (res : exec_result) :
  insert_user name email s = (inr res, s') ->
  varchar255 name = true /\ varchar255 email = true /\
  users s !! auto_increment s = None /\
  ~ email_in_use email (users s) /\
  res = mkResult (auto_increment s) 1 /\
  s' = mkServer
         (<[auto_increment s := mkRow name email (clock s) (clock s)]> (users s))
         (auto_increment s + 1) (clock s).
Proof.
  unfold insert_user.
  destruct (varchar255 name) eqn:Hn, (varchar255 email) eqn:He; simpl;
    try done.
  destruct (decide (is_Some (users s !! auto_increment s))) as [Hpk|Hpk];
    [done|].
  destruct (decide (email_in_use email (users s))) as [Hdup|Hdup]; [done|].
  intros Heq. inversion Heq; subst. repeat split; try done.
  by apply eq_None_not_Some.
Qed.

Lemma insert_user_failed (name email : string) (s s' : Server) (e : sql_error) :
  insert_user name email s = (inl e, s') -> users s' = users s.
Proof.
  unfold insert_user.
  destruct (negb _); [by inversion 1|].
  destruct (decide _); [by inversion 1|].
  destruct (decide _); by inversion 1.
Qed.

Lemma update_user_ok (name email : string) (id : Z) (s s' : Server)
    (res : exec_result) :
  update_user name email id s = (inr res, s') ->
  (users s !! id = None /\ s' = s /\ RowsAffected res = 0) \/
  (exists r, users s !! id = Some r /\
     varchar255 name = true /\ varchar255 email = true /\
     ~ email_in_use_by_other email id (users s) /\
     s' = mkServer
            (<[id := mkRow name email (r_created_at r) (clock s)]> (users s))
            (auto_increment s) (clock s)).
Proof.
  unfold update_user. destruct (users s !! id) as [r|] eqn:Hid.
  - destruct (varchar255 name) eqn:Hn, (varchar255 email) eqn:He; simpl;
      try done.
    destruct (decide _) as [Hdup|Hdup]; [done|].
    intros Heq. inversion Heq; subst. right. by exists r.
  - intros Heq. inversion Heq; subst. by left.
Qed.

Lemma update_user_failed (name email : string) (id : Z) (s s' : Server)
    (e : sql_error) :
  update_user name email id s = (inl e, s') -> s' = s.
Proof.
  unfold update_user. destruct (users s !! id); [|done].
  destruct (negb _); [by inversion 1|].
  destruct (decide _); by inversion 1.
Qed.

Lemma delete_user_users (id : Z) (s s' : Server)
    (r : sql_error + exec_result) :
  delete_user id s = (r, s') -> users s' = delete id (users s).
Proof.
  unfold delete_user. destruct (users s !! id) eqn:Hid.
  - by inversion 1.
  - inversion 1; subst. by rewrite delete_id.
Qed.

Lemma insert_keeps_emails_unique name email s r s' :
  insert_user name email s = (r, s') ->
  emails_unique (users s) -> emails_unique (users s').
Proof.
  destruct r as [e|res]; intros Hins Huniq.
  - by rewrite (insert_user_failed _ _ _ _ _ Hins).
  - apply insert_user_ok in Hins as (_ & _ & _ & Hfree & _ & ->). simpl.
    apply emails_unique_insert; [|done]. simpl.
    intros Hother. by apply Hfree, (in_use_by_other_in_use _ (auto_increment s)).
Qed.

Lemma update_keeps_emails_unique name email id s r s' :
  update_user name email id s = (r, s') ->
  emails_unique (users s) -> emails_unique (users s').
Proof.
  destruct r as [e|res]; intros Hupd Huniq.
  - by rewrite (update_user_failed _ _ _ _ _ _ Hupd).
  - apply update_user_ok in Hupd as [(_ & -> & _)|(r & _ & _ & _ & Hfree & ->)];
      [done|]. simpl.
    by apply emails_unique_insert.
Qed.

Lemma delete_keeps_emails_unique id s r s' :
  delete_user id s = (r, s') ->
  emails_unique (users s) -> emails_unique (users s').
Proof.
  intros Hdel Huniq. rewrite (delete_user_users _ _ _ _ Hdel).
  by apply emails_unique_delete.
Qed.

Lemma insert_keeps_emails_distinct name email s r s' :
  insert_user name email s = (r, s') ->
  emails_distinct (users s) -> emails_distinct (users s').
Proof.
  destruct r as [e|res]; intros Hins Hdist.
  - by rewrite (insert_user_failed _ _ _ _ _ Hins).
  - apply insert_user_ok in Hins as (_ & _ & _ & Hfree & _ & ->). simpl.
    apply emails_distinct_insert; [|done]. simpl.
    intros Hother. by apply Hfree, (in_use_by_other_in_use _ (auto_increment s)).
Qed.

Lemma update_keeps_emails_distinct name email id s r s' :
  update_user name email id s = (r, s') ->
  emails_distinct (users s) -> emails_distinct (users s').
Proof.
  destruct r as [e|res]; intros Hupd Hdist.
  - by rewrite (update_user_failed _ _ _ _ _ _ Hupd).
  - apply update_user_ok in Hupd as [(_ & -> & _)|(r & _ & _ & _ & Hfree & ->)];
      [done|]. simpl.
    by apply emails_distinct_insert.
Qed.

Lemma delete_keeps_emails_distinct id s r s' :
  delete_user id s = (r, s') ->
  emails_distinct (users s) -> emails_distinct (users s').
Proof.
  intros Hdel Hdist. rewrite (delete_user_users _ _ _ _ Hdel).
  by apply emails_distinct_delete.
Qed.

(** C1. Email uniqueness is an invariant: from a table in which no two users
    share an email, every successful sequence of createUser, updateUser and
    deleteUser calls leads to a table in which no two rows share an email.
    This holds for sharing in the sense of the column's collation and for
    sharing the very same string. *)
Theorem email_uniqueness_invariant (rqs : list request) (w w' : World) :
  perform_all rqs w = (inr tt, w') ->
  (emails_unique (users (server w)) -> emails_unique (users (server w'))) /\
  (emails_distinct (users (server w)) -> emails_distinct (users (server w'))).
Proof.
  intros Hrun. split.
  - exact (keeps_perform_all (fun s => emails_unique (users s))
             (fun _ _ H => H) insert_keeps_emails_unique
             update_keeps_emails_unique delete_keeps_emails_unique
             rqs w (inr tt) w' Hrun).
  - exact (keeps_perform_all (fun s => emails_distinct (users s))
             (fun _ _ H => H) insert_keeps_emails_distinct
             update_keeps_emails_distinct delete_keeps_emails_distinct
             rqs w (inr tt) w' Hrun).
Qed.

(** ** The three writes, spelled out round trip by round trip *)

Lemma Exec_eq (c : Server -> (sql_error + exec_result) * Server) (w : World) :
  Exec c w =
    if faulty w then (inl ErrBadConn, next w (server w))
    else (fst (c (arrives w)), next w (snd (c (arrives w)))).
Proof.
  unfold Exec, roundtrip. destruct (faulty w); [done|].
  by destruct (c (arrives w)).
Qed.

Lemma CreateUser_eq (name email : string) (w : World) :
  CreateUser name email w =
    if faulty w
    then (inl (QueryError "failed to check email existence" ErrBadConn),
          next w (server w))
    else
      let w1 := next w (arrives w) in
      if bool_decide (email_in_use email (users (server w)))
      then (inl (ConflictError email), w1)
      else if faulty w1
      then (inl (QueryError "failed to create user" ErrBadConn),
            next w1 (server w1))
      else
        match insert_user name email (arrives w1) with
        | (inl e, s2) => (inl (QueryError "failed to create user" e), next w1 s2)
        | (inr result, s2) => GetUserByID (LastInsertId result) (next w1 s2)
        end.
Proof.
  unfold CreateUser, bind, failed_to, throw. rewrite emailExists_eq.
  destruct (faulty w); [done|]. simpl.
  destruct (bool_decide _); [done|].
  rewrite Exec_eq. destruct (faulty (next w (arrives w))); [done|].
  by destruct (insert_user name email _) as [[e|res] s2].
Qed.

Lemma UpdateUser_eq (id : Z) (name email : string) (w : World) :
  UpdateUser id name email w =
    if faulty w
    then (inl (QueryError "failed to get user" ErrBadConn), next w (server w))
    else
      let w1 := next w (arrives w) in
      match users (server w) !! id with
      | None => (inl (NotFoundError id), w1)
      | Some _ =>
          if faulty w1
          then (inl (QueryError "failed to check email existence" ErrBadConn),
                next w1 (server w1))
          else
            let w2 := next w1 (arrives w1) in
            if bool_decide (email_in_use_by_other email id (users (server w)))
            then (inl (ConflictError email), w2)
            else if faulty w2
            then (inl (QueryError "failed to update user" ErrBadConn),
                  next w2 (server w2))
            else
              match update_user name email id (arrives w2) with
              | (inl e, s3) =>
                  (inl (QueryError "failed to update user" e), next w2 s3)
              | (inr _, s3) => GetUserByID id (next w2 s3)
              end
      end.
Proof.
  unfold UpdateUser, bind, failed_to, throw. rewrite GetUserByID_eq.
  destruct (faulty w); [done|]. simpl.
  destruct (users (server w) !! id) as [r|]; [|done].
  rewrite emailExistsForOtherUser_eq.
  destruct (faulty (next w (arrives w))); [done|]. simpl.
  rewrite users_arrives.
  destruct (bool_decide _); [done|].
  rewrite Exec_eq. destruct (faulty (next (next w (arrives w)) _)); [done|].
  by destruct (update_user name email id _) as [[e|res] s3].
Qed.

Lemma DeleteUser_eq (id : Z) (w : World) :
  DeleteUser id w =
    if faulty w
    then (inl (QueryError "failed to get user" ErrBadConn), next w (server w))
    else
      let w1 := next w (arrives w) in
      match users (server w) !! id with
      | None => (inl (NotFoundError id), w1)
      | Some _ =>
          if faulty w1
          then (inl (QueryError "failed to delete user" ErrBadConn),
                next w1 (server w1))
          else
            match delete_user id (arrives w1) with
            | (inl e, s2) =>
                (inl (QueryError "failed to delete user" e), next w1 s2)
            | (inr result, s2) =>
                if RowsAffected result =? 0
                then (inl (NotFoundError id), next w1 s2)
                else (inr tt, next w1 s2)
            end
      end.
Proof.
  unfold DeleteUser, bind, failed_to, throw, ret. rewrite GetUserByID_eq.
  destruct (faulty w); [done|]. simpl.
  destruct (users (server w) !! id) as [r|]; [|done].
  rewrite Exec_eq. destruct (faulty (next w (arrives w))); [done|].
  destruct (delete_user id _) as [[e|res] s2]; simpl; [done|].
  by destruct (RowsAffected res =? 0).
Qed.

(** ** What a call that returned has done *)

Lemma CreateUser_ok_inv (name email : string) (w w' : World) (u : User) :
  CreateUser name email w = (inr u, w') ->
  exists t,
    u = mkUser (auto_increment (server w)) name email t t /\
    users (server w) !! auto_increment (server w) = None /\
    ~ email_in_use email (users (server w)) /\
    users (server w') =
      <[auto_increment (server w) := mkRow name email t t]> (users (server w)) /\
    auto_increment (server w') = auto_increment (server w) + 1 /\
    clock (server w) <= t <= clock (server w') /\
    varchar255 name = true /\ varchar255 email = true.
Proof.
  rewrite CreateUser_eq. destruct (faulty w); [done|]. cbv zeta.
  case_bool_decide as Hfree; [done|].
  set (w1 := next w (arrives w)).
  destruct (faulty w1); [done|].
  destruct (insert_user name email (arrives w1)) as [[e|res] s2] eqn:Hins;
    [done|].
  apply insert_user_ok in Hins as (Hn & He & Hfresh & _ & -> & ->).
  rewrite GetUserByID_eq. set (w2 := next w1 _).
  destruct (faulty w2); [done|].
  assert (Haut : auto_increment (arrives w1) = auto_increment (server w)).
  { by rewrite auto_increment_arrives; simpl; rewrite auto_increment_arrives. }
  assert (Husers : users (arrives w1) = users (server w)).
  { by rewrite users_arrives; simpl; rewrite users_arrives. }
  simpl. rewrite lookup_insert_eq. intros Heq. inversion Heq; subst.
  exists (clock (arrives w1)). rewrite Haut, Husers in *.
  repeat split; try done.
  - simpl. rewrite users_arrives. unfold w2. simpl.
    by rewrite Haut, Husers.
  - simpl. rewrite auto_increment_arrives. unfold w2. simpl.
    by rewrite Haut.
  - pose proof (clock_arrives w). pose proof (clock_arrives w1).
    simpl in *. lia.
  - pose proof (clock_arrives w2). simpl in *. lia.
Qed.

Lemma CreateUser_calm (name email : string) (w : World) :
  calm 3 (pending w) = true ->
  varchar255 name = true -> varchar255 email = true ->
  users (server w) !! auto_increment (server w) = None ->
  ~ email_in_use email (users (server w)) ->
  exists u w', CreateUser name email w = (inr u, w').
Proof.
  intros Hcalm Hn He Hfresh Hfree. rewrite CreateUser_eq.
  apply calm_next in Hcalm as [-> Hcalm]. cbv zeta.
  rewrite bool_decide_eq_false_2 by done.
  set (w1 := next w (arrives w)).
  apply (calm_next 1 w1) in Hcalm as [-> Hcalm].
  assert (Haut : auto_increment (arrives w1) = auto_increment (server w)).
  { by rewrite auto_increment_arrives; simpl; rewrite auto_increment_arrives. }
  assert (Husers : users (arrives w1) = users (server w)).
  { by rewrite users_arrives; simpl; rewrite users_arrives. }
  unfold insert_user. rewrite Hn, He. simpl negb. cbv iota.
  rewrite Haut, Husers.
  destruct (decide (is_Some _)) as [Hpk|_].
  { rewrite Hfresh in Hpk. by destruct Hpk. }
  destruct (decide (email_in_use _ _)) as [|_]; [done|].
  rewrite GetUserByID_eq. set (w2 := next w1 _).
  apply (calm_next 0 w2) in Hcalm as [-> _].
  simpl. rewrite lookup_insert_eq. eauto.
Qed.

Lemma ids_allocated_fresh (s : Server) :
  ids_allocated s -> users s !! auto_increment s = None.
Proof.
  intros [_ Hids]. destruct (users s !! auto_increment s) as [r|] eqn:Hr;
    [|done].
  pose proof (Hids _ _ Hr) as Hrange. simpl in Hrange. lia.
Qed.

Lemma UpdateUser_ok_inv (id : Z) (name email : string) (w w' : World)
    (u : User) :
  UpdateUser id name email w = (inr u, w') ->
  exists r t,
    users (server w) !! id = Some r /\
    ~ email_in_use_by_other email id (users (server w)) /\
    u = mkUser id name email (r_created_at r) t /\
    users (server w') =
      <[id := mkRow name email (r_created_at r) t]> (users (server w)) /\
    auto_increment (server w') = auto_increment (server w) /\
    clock (server w) <= t <= clock (server w') /\
    varchar255 name = true /\ varchar255 email = true.
Proof.
  rewrite UpdateUser_eq. destruct (faulty w); [done|]. cbv zeta.
  destruct (users (server w) !! id) as [r|] eqn:Hid; [|done].
  set (w1 := next w (arrives w)). destruct (faulty w1); [done|].
  case_bool_decide as Hfree; [done|].
  set (w2 := next w1 (arrives w1)). destruct (faulty w2); [done|].
  assert (Husers : users (arrives w2) = users (server w)).
  { rewrite users_arrives. simpl. rewrite users_arrives. simpl.
    by rewrite users_arrives. }
  assert (Haut : auto_increment (arrives w2) = auto_increment (server w)).
  { rewrite auto_increment_arrives. simpl. rewrite auto_increment_arrives.
    simpl. by rewrite auto_increment_arrives. }
  destruct (update_user name email id (arrives w2)) as [[e|res] s3] eqn:Hupd;
    [done|].
  apply update_user_ok in Hupd
    as [(Hnone & _)|(r' & Hid' & Hn & He & _ & ->)].
  { rewrite Husers in Hnone. congruence. }
  rewrite Husers in Hid'. assert (r' = r) as -> by congruence.
  rewrite GetUserByID_eq. set (w3 := next w2 _).
  destruct (faulty w3); [done|].
  simpl. rewrite lookup_insert_eq. intros Heq. inversion Heq; subst.
  exists r, (clock (arrives w2)). repeat split; try done.
  - simpl. rewrite users_arrives. unfold w3. simpl. by rewrite Husers.
  - simpl. rewrite auto_increment_arrives. unfold w3. simpl. by rewrite Haut.
  - pose proof (clock_arrives w). pose proof (clock_arrives w1).
    pose proof (clock_arrives w2). simpl in *. lia.
  - pose proof (clock_arrives w3). simpl in *. lia.
Qed.

Lemma UpdateUser_calm (id : Z) (name email : string) (w : World) (r : Row) :
  calm 4 (pending w) = true ->
  users (server w) !! id = Some r ->
  varchar255 name = true -> varchar255 email = true ->
  ~ email_in_use_by_other email id (users (server w)) ->
  exists u w', UpdateUser id name email w = (inr u, w').
Proof.
  intros Hcalm Hid Hn He Hfree. rewrite UpdateUser_eq.
  apply calm_next in Hcalm as [-> Hcalm]. cbv zeta. rewrite Hid.
  set (w1 := next w (arrives w)).
  apply (calm_next 2 w1) in Hcalm as [-> Hcalm].
  rewrite bool_decide_eq_false_2 by done.
  set (w2 := next w1 (arrives w1)).
  apply (calm_next 1 w2) in Hcalm as [-> Hcalm].
  assert (Husers : users (arrives w2) = users (server w)).
  { rewrite users_arrives. simpl. rewrite users_arrives. simpl.
    by rewrite users_arrives. }
  unfold update_user. rewrite Husers, Hid, Hn, He. simpl negb. cbv iota.
  destruct (decide (email_in_use_by_other _ _ _)) as [|_]; [done|].
  rewrite GetUserByID_eq. set (w3 := next w2 _).
  apply (calm_next 0 w3) in Hcalm as [-> _].
  simpl. rewrite lookup_insert_eq. eauto.
Qed.

Lemma DeleteUser_ok_inv (id : Z) (w w' : World) :
  DeleteUser id w = (inr tt, w') ->
  is_Some (users (server w) !! id) /\
  users (server w') = delete id (users (server w)) /\
  auto_increment (server w') = auto_increment (server w).
Proof.
  rewrite DeleteUser_eq. destruct (faulty w); [done|]. cbv zeta.
  destruct (users (server w) !! id) as [r|] eqn:Hid; [|done].
  set (w1 := next w (arrives w)). destruct (faulty w1); [done|].
  assert (Husers : users (arrives w1) = users (server w)).
  { rewrite users_arrives. simpl. by rewrite users_arrives. }
  assert (Haut : auto_increment (arrives w1) = auto_increment (server w)).
  { rewrite auto_increment_arrives. simpl. by rewrite auto_increment_arrives. }
  unfold delete_user. rewrite Husers, Hid. simpl.
  intros Heq. inversion Heq; subst. simpl. by rewrite Haut.
Qed.

Lemma DeleteUser_calm (id : Z) (w : World) :
  calm 2 (pending w) = true ->
  is_Some (users (server w) !! id) ->
  exists w', DeleteUser id w = (inr tt, w').
Proof.
  intros Hcalm [r Hid]. rewrite DeleteUser_eq.
  apply calm_next in Hcalm as [-> Hcalm]. cbv zeta. rewrite Hid.
  set (w1 := next w (arrives w)).
  apply (calm_next 0 w1) in Hcalm as [-> _].
  unfold delete_user. rewrite users_arrives. simpl. rewrite users_arrives.
  rewrite Hid. simpl. eauto.
Qed.

(** ** Named errors come from the probes, before any write *)

Lemma CreateUser_conflict_inv (name email e : string) (w w' : World) :
  CreateUser name email w = (inl (ConflictError e), w') ->
  e = email /\ email_in_use email (users (server w)) /\
  w' = next w (arrives w).
Proof.
  rewrite CreateUser_eq. destruct (faulty w); [done|]. cbv zeta.
  case_bool_decide as Hused; [by intros [= <- <-]|].
  destruct (faulty _); [done|].
  destruct (insert_user name email _) as [[e'|res] s2]; [done|].
  rewrite GetUserByID_eq. destruct (faulty _); [done|]. simpl.
  by destruct (users s2 !! LastInsertId res).
Qed.

Lemma UpdateUser_not_found_inv (id i : Z) (name email : string)
    (w w' : World) :
  UpdateUser id name email w = (inl (NotFoundError i), w') ->
  i = id /\ users (server w) !! id = None /\ w' = next w (arrives w).
Proof.
  rewrite UpdateUser_eq. destruct (faulty w); [done|]. cbv zeta.
  destruct (users (server w) !! id) as [r|] eqn:Hid; [|by intros [= <- <-]].
  set (w1 := next w (arrives w)). destruct (faulty w1); [done|].
  case_bool_decide as Hfree; [done|].
  set (w2 := next w1 (arrives w1)). destruct (faulty w2); [done|].
  assert (Husers : users (arrives w2) = users (server w)).
  { rewrite users_arrives. simpl. rewrite users_arrives. simpl.
    by rewrite users_arrives. }
  destruct (update_user name email id (arrives w2)) as [[e|res] s3] eqn:Hupd;
    [done|].
  rewrite GetUserByID_eq. destruct (faulty _); [done|]. simpl.
  apply update_user_ok in Hupd as [(Hnone & _)|(r' & _ & _ & _ & _ & ->)].
  { rewrite Husers in Hnone. congruence. }
  simpl. by rewrite lookup_insert_eq.
Qed.

Lemma UpdateUser_conflict_inv (id : Z) (name email e : string)
    (w w' : World) :
  UpdateUser id name email w = (inl (ConflictError e), w') ->
  e = email /\ is_Some (users (server w) !! id) /\
  email_in_use_by_other email id (users (server w)) /\
  w' = next (next w (arrives w)) (arrives (next w (arrives w))).
Proof.
  rewrite UpdateUser_eq. destruct (faulty w); [done|]. cbv zeta.
  destruct (users (server w) !! id) as [r|] eqn:Hid; [|done].
  destruct (faulty _); [done|].
  case_bool_decide as Hused; [by intros [= <- <-]|].
  destruct (faulty _); [done|].
  destruct (update_user name email id _) as [[e'|res] s3]; [done|].
  rewrite GetUserByID_eq. destruct (faulty _); [done|]. simpl.
  by destruct (users s3 !! id).
Qed.

Lemma DeleteUser_not_found_inv (id i : Z) (w w' : World) :
  DeleteUser id w = (inl (NotFoundError i), w') ->
  i = id /\ users (server w) !! id = None /\ w' = next w (arrives w).
Proof.
  rewrite DeleteUser_eq. destruct (faulty w); [done|]. cbv zeta.
  destruct (users (server w) !! id) as [r|] eqn:Hid; [|by intros [= <- <-]].
  set (w1 := next w (arrives w)). destruct (faulty w1); [done|].
  unfold delete_user. rewrite users_arrives. simpl. rewrite users_arrives.
  by rewrite Hid.
Qed.

(** ** Ids and timestamps stay in order *)

Lemma ids_allocated_advance dt s : ids_allocated s -> ids_allocated (advance dt s).
Proof. done. Qed.

Lemma insert_keeps_ids_allocated name email s r s' :
  insert_user name email s = (r, s') -> ids_allocated s -> ids_allocated s'.
Proof.
  intros Hins [Hpos Hids]. unfold insert_user in Hins.
  assert (Htaken : ids_allocated
                     (mkServer (users s) (auto_increment s + 1) (clock s))).
  { split; simpl; [lia|]. intros i ri Hi.
    pose proof (Hids _ _ Hi) as Hrange. simpl in *. lia. }
  destruct (negb _); [by inversion Hins; subst|].
  destruct (decide _); [by inversion Hins; subst|].
  destruct (decide _); [by inversion Hins; subst|].
  inversion Hins; subst. split; simpl; [lia|].
  apply map_Forall_insert_2; [lia|].
  intros i ri Hi. pose proof (Hids _ _ Hi) as Hrange. simpl in *. lia.
Qed.

Lemma update_keeps_ids_allocated name email id s r s' :
  update_user name email id s = (r, s') -> ids_allocated s -> ids_allocated s'.
Proof.
  destruct r as [e|res]; intros Hupd Hids.
  - by rewrite (update_user_failed _ _ _ _ _ _ Hupd).
  - apply update_user_ok in Hupd as [(_ & -> & _)|(r & Hid & _ & _ & _ & ->)];
      [done|].
    destruct Hids as [Hpos Hids]. split; [done|]. simpl.
    apply map_Forall_insert_2; [|done]. exact (Hids _ _ Hid).
Qed.

Lemma delete_keeps_ids_allocated id s r s' :
  delete_user id s = (r, s') -> ids_allocated s -> ids_allocated s'.
Proof.
  intros Hdel [Hpos Hids]. unfold delete_user in Hdel.
  destruct (users s !! id); inversion Hdel; subst; [|done].
  split; [done|]. simpl. by apply map_Forall_delete.
Qed.

Lemma timestamps_ordered_advance dt s :
  timestamps_ordered s -> timestamps_ordered (advance dt s).
Proof.
  intros Hts i r Hi. pose proof (Hts _ _ Hi) as Hr. simpl in *. lia.
Qed.

Lemma insert_keeps_timestamps_ordered name email s r s' :
  insert_user name email s = (r, s') ->
  timestamps_ordered s -> timestamps_ordered s'.
Proof.
  destruct r as [e|res]; intros Hins Hts.
  - unfold insert_user in Hins.
    destruct (negb _); [by inversion Hins; subst|].
    destruct (decide _); [by inversion Hins; subst|].
    destruct (decide _); by inversion Hins; subst.
  - apply insert_user_ok in Hins as (_ & _ & _ & _ & _ & ->).
    apply map_Forall_insert_2; [simpl; lia|done].
Qed.

Lemma update_keeps_timestamps_ordered name email id s r s' :
  update_user name email id s = (r, s') ->
  timestamps_ordered s -> timestamps_ordered s'.
Proof.
  destruct r as [e|res]; intros Hupd Hts.
  - by rewrite (update_user_failed _ _ _ _ _ _ Hupd).
  - apply update_user_ok in Hupd as [(_ & -> & _)|(r & Hid & _ & _ & _ & ->)];
      [done|].
    apply map_Forall_insert_2; [|done].
    pose proof (Hts _ _ Hid) as Hr. simpl in *. lia.
Qed.

Lemma delete_keeps_timestamps_ordered id s r s' :
  delete_user id s = (r, s') ->
  timestamps_ordered s -> timestamps_ordered s'.
Proof.
  intros Hdel Hts. unfold delete_user in Hdel.
  destruct (users s !! id); inversion Hdel; subst; [|done].
  by apply map_Forall_delete.
Qed.

(** Every sequence of requests, successful or not, leaves ids allocated and
    timestamps ordered. *)
Lemma perform_all_keeps_order (rqs : list request) (w w' : World)
    (r : error + unit) :
  perform_all rqs w = (r, w') ->
  ids_allocated (server w) /\ timestamps_ordered (server w) ->
  ids_allocated (server w') /\ timestamps_ordered (server w').
Proof.
  intros Hrun [Hids Hts]. split.
  - exact (keeps_perform_all ids_allocated ids_allocated_advance
             insert_keeps_ids_allocated update_keeps_ids_allocated
             delete_keeps_ids_allocated rqs w r w' Hrun Hids).
  - exact (keeps_perform_all timestamps_ordered timestamps_ordered_advance
             insert_keeps_timestamps_ordered update_keeps_timestamps_ordered
             delete_keeps_timestamps_ordered rqs w r w' Hrun Hts).
Qed.

(** ** The claims about single calls *)

(** C2 (as amended). For every name and email that fit their VARCHAR(255)
    columns, with an email no existing user has, createUser succeeds when
    the storage does not fail: the returned user's email and name equal the
    inputs, its id is newly assigned and positive, its created_at equals its
    updated_at, and the row is in the table. *)
Theorem CreateUser_unused_email (name email : string) (w : World) :
  ids_allocated (server w) ->
  calm 3 (pending w) = true ->
  varchar255 name = true -> varchar255 email = true ->
  ~ email_in_use email (users (server w)) ->
  exists u w',
    CreateUser name email w = (inr u, w') /\
    Email u = email /\ Name u = name /\
    0 < ID u /\ users (server w) !! ID u = None /\
    CreatedAt u = UpdatedAt u /\
    users (server w') !! ID u =
      Some (mkRow name email (CreatedAt u) (UpdatedAt u)).
Proof.
  intros Hids Hcalm Hn He Hfree.
  destruct (CreateUser_calm name email w Hcalm Hn He
              (ids_allocated_fresh _ Hids) Hfree) as (u & w' & Hrun).
  exists u, w'. split; [done|].
  apply CreateUser_ok_inv in Hrun
    as (t & -> & Hfresh & _ & Husers & _ & _ & _ & _).
  simpl. rewrite Husers, lookup_insert_eq. destruct Hids as [Hpos _].
  done.
Qed.

(** C3. When createUser has succeeded with an email and is called again,
    after it, with the same email, the second call returns ConflictError
    (whatever name it is given). *)
Theorem CreateUser_same_email_again (name name' email : string)
    (w w1 : World) (u : User) :
  CreateUser name email w = (inr u, w1) ->
  calm 1 (pending w1) = true ->
  exists w2, CreateUser name' email w1 = (inl (ConflictError email), w2).
Proof.
  intros Hfirst Hcalm.
  apply CreateUser_ok_inv in Hfirst as (t & _ & _ & _ & Husers & _).
  rewrite CreateUser_eq. apply calm_next in Hcalm as [-> _]. cbv zeta.
  rewrite bool_decide_eq_true_2; [eauto|].
  exists (auto_increment (server w)), (mkRow name email t t).
  split; [|done]. by rewrite Husers, lookup_insert_eq.
Qed.

(** C5. For an id no user has, updateUser returns NotFoundError whatever the
    payload: a valid one, an over-long one, or one whose email another user
    holds. *)
Theorem UpdateUser_unknown_id (id : Z) (name email : string) (w : World) :
  users (server w) !! id = None ->
  calm 1 (pending w) = true ->
  exists w', UpdateUser id name email w = (inl (NotFoundError id), w').
Proof.
  intros Hid Hcalm. rewrite UpdateUser_eq.
  apply calm_next in Hcalm as [-> _]. cbv zeta. rewrite Hid. eauto.
Qed.

(** C6. After a successful deleteUser(id) the row is gone from the table
    (nothing is kept in its place and no other row is touched), and
    getUser(id) yields NotFoundError. *)
Theorem DeleteUser_then_GetUserByID (id : Z) (w w1 : World) :
  DeleteUser id w = (inr tt, w1) ->
  calm 1 (pending w1) = true ->
  is_Some (users (server w) !! id) /\
  users (server w1) = delete id (users (server w)) /\
  exists w2, GetUserByID id w1 = (inl (NotFoundError id), w2).
Proof.
  intros Hdel Hcalm.
  apply DeleteUser_ok_inv in Hdel as (Hwas & Husers & _).
  repeat split; try done.
  rewrite GetUserByID_eq. apply calm_next in Hcalm as [-> _].
  rewrite Husers, lookup_delete_eq. eauto.
Qed.

Lemma own_email_not_in_use_by_other (m : gmap Z Row) (id : Z) (r : Row) :
  emails_unique m -> m !! id = Some r ->
  ~ email_in_use_by_other (r_email r) id m.
Proof.
  intros Huniq Hid (i & ri & Hi & Hsame & Hne).
  apply Hne. exact (Huniq i ri Hi id r Hid Hsame).
Qed.

(** C4 (as amended). For an existing id, and when the storage does not fail,
    updateUser returns ConflictError exactly when the email is in use by a
    user with a different id.  In particular, in a table without shared
    emails, updating a user while keeping that user's own current email never
    returns ConflictError, and succeeds when name and email fit their
    columns. *)
Theorem UpdateUser_conflict_iff (id : Z) (name email : string) (w : World)
    (r : Row) :
  users (server w) !! id = Some r ->
  calm 2 (pending w) = true ->
  ((exists w', UpdateUser id name email w = (inl (ConflictError email), w')) <->
   email_in_use_by_other email id (users (server w))) /\
  (emails_unique (users (server w)) -> email = r_email r ->
   (forall e w', UpdateUser id name email w <> (inl (ConflictError e), w')) /\
   (calm 4 (pending w) = true ->
    varchar255 name = true -> varchar255 email = true ->
    exists u w', UpdateUser id name email w = (inr u, w') /\
                 Email u = email /\ Name u = name)).
Proof.
  intros Hid Hcalm. split; [split|].
  - intros (w' & Hrun). by apply UpdateUser_conflict_inv in Hrun as (_ & _ & ? & _).
  - intros Hused. rewrite UpdateUser_eq.
    apply calm_next in Hcalm as [-> Hcalm]. cbv zeta. rewrite Hid.
    apply (calm_next 0 (next w (arrives w))) in Hcalm as [-> _].
    rewrite bool_decide_eq_true_2 by done. eauto.
  - intros Huniq ->.
    pose proof (own_email_not_in_use_by_other _ _ _ Huniq Hid) as Hfree.
    split.
    + intros e w' Hrun.
      by apply UpdateUser_conflict_inv in Hrun as (_ & _ & ? & _).
    + intros Hcalm4 Hn He.
      destruct (UpdateUser_calm id name (r_email r) w r Hcalm4 Hid Hn He Hfree)
        as (u & w' & Hrun).
      exists u, w'. split; [done|].
      by apply UpdateUser_ok_inv in Hrun as (r' & t & _ & _ & -> & _).
Qed.

(** C8 (as amended). A successful updateUser that passes the user's current
    email and a name leaves the stored email unchanged and stamps updated_at
    with a reading of the server's clock taken during the call, which is
    never before the user's prior updated_at; it equals the prior value when
    the clock has not moved since. *)
Theorem UpdateUser_name_only (id : Z) (name : string) (w w' : World)
    (r : Row) (u : User) :
  timestamps_ordered (server w) ->
  users (server w) !! id = Some r ->
  UpdateUser id name (r_email r) w = (inr u, w') ->
  Email u = r_email r /\ Name u = name /\ CreatedAt u = r_created_at r /\
  users (server w') !! id =
    Some (mkRow name (r_email r) (r_created_at r) (UpdatedAt u)) /\
  r_updated_at r <= UpdatedAt u /\
  clock (server w) <= UpdatedAt u <= clock (server w').
Proof.
  intros Hts Hid Hrun.
  apply UpdateUser_ok_inv in Hrun
    as (r' & t & Hid' & _ & -> & Husers & _ & Ht & _).
  assert (r' = r) as -> by congruence.
  pose proof (Hts _ _ Hid) as Hr. simpl in Hr. simpl.
  rewrite Husers, lookup_insert_eq. repeat split; try done; lia.
Qed.

Lemma length_insert_desc (u : User) (l : list User) :
  length (insert_desc u l) = S (length l).
Proof.
  induction l as [|v t IH]; [done|]. simpl.
  destruct (CreatedAt v <? CreatedAt u); simpl; by rewrite ?IH.
Qed.

Lemma length_order_by_created_at_desc (l : list User) :
  length (order_by_created_at_desc l) = length l.
Proof.
  induction l as [|u t IH]; [done|]. simpl.
  by rewrite length_insert_desc, IH.
Qed.

Lemma length_select_users (s : Server) :
  length (select_users s) = size (users s).
Proof.
  unfold select_users.
  by rewrite length_order_by_created_at_desc, length_fmap, length_map_to_list.
Qed.

(** C9. Over the same table, the integer returned by a successful countUsers
    is the length of the sequence returned by a successful listUsers. *)
Theorem GetUsersCount_GetAllUsers (w1 w2 w1' w2' : World) (n : Z)
    (l : list User) :
  users (server w1) = users (server w2) ->
  GetUsersCount w1 = (inr n, w1') ->
  GetAllUsers w2 = (inr l, w2') ->
  n = Z.of_nat (length l).
Proof.
  intros Hsame Hcount Hlist.
  rewrite GetUsersCount_eq in Hcount. rewrite GetAllUsers_eq in Hlist.
  destruct (faulty w1); [done|]. destruct (faulty w2); [done|].
  inversion Hcount; subst. inversion Hlist; subst.
  by rewrite length_select_users, Hsame.
Qed.

(** C10. Atomicity on named errors: when createUser returns ConflictError,
    when updateUser returns NotFoundError or ConflictError, and when
    deleteUser returns NotFoundError, the users table (rows and
    AUTO_INCREMENT counter) is as it was before the call. *)
Theorem named_errors_leave_table :
  (forall name email e w w',
     CreateUser name email w = (inl (ConflictError e), w') ->
     users (server w') = users (server w) /\
     auto_increment (server w') = auto_increment (server w)) /\
  (forall id name email i w w',
     UpdateUser id name email w = (inl (NotFoundError i), w') ->
     users (server w') = users (server w) /\
     auto_increment (server w') = auto_increment (server w)) /\
  (forall id name email e w w',
     UpdateUser id name email w = (inl (ConflictError e), w') ->
     users (server w') = users (server w) /\
     auto_increment (server w') = auto_increment (server w)) /\
  (forall id i w w',
     DeleteUser id w = (inl (NotFoundError i), w') ->
     users (server w') = users (server w) /\
     auto_increment (server w') = auto_increment (server w)).
Proof.
  split; [|split; [|split]].
  - intros name email e w w' Hrun.
    apply CreateUser_conflict_inv in Hrun as (_ & _ & ->).
    split; [apply users_arrives | apply auto_increment_arrives].
  - intros id name email i w w' Hrun.
    apply UpdateUser_not_found_inv in Hrun as (_ & _ & ->).
    split; [apply users_arrives | apply auto_increment_arrives].
  - intros id name email e w w' Hrun.
    apply UpdateUser_conflict_inv in Hrun as (_ & _ & _ & ->). simpl. split.
    + rewrite users_arrives. simpl. apply users_arrives.
    + rewrite auto_increment_arrives. simpl. apply auto_increment_arrives.
  - intros id i w w' Hrun.
    apply DeleteUser_not_found_inv in Hrun as (_ & _ & ->).
    split; [apply users_arrives | apply auto_increment_arrives].
Qed.

(** ** Seeding *)

Lemma calm_drop (k n : nat) (env : list event) :
  calm (k + n) env = true -> calm n (drop k env) = true.
Proof.
  revert env. induction k as [|k IH]; intros env; [done|].
  destruct env as [|[dt|] rest]; simpl; try done.
  - intros _. by destruct n.
  - apply IH.
Qed.

Lemma calm_le (n m : nat) (env : list event) :
  (n <= m)%nat -> calm m env = true -> calm n env = true.
Proof.
  induction 1 as [|m Hle IH]; [done|].
  intros Hcalm. by apply IH, calm_weaken.
Qed.

Lemma CreateUser_ok_pending (name email : string) (w w' : World) (u : User) :
  CreateUser name email w = (inr u, w') -> pending w' = drop 3 (pending w).
Proof.
  rewrite CreateUser_eq. destruct (faulty w); [done|]. cbv zeta.
  destruct (bool_decide _); [done|]. destruct (faulty _); [done|].
  destruct (insert_user name email _) as [[e|res] s2]; [done|].
  rewrite GetUserByID_eq. destruct (faulty _); [done|]. simpl.
  destruct (users s2 !! LastInsertId res); [|done].
  intros Heq. inversion Heq; subst. simpl.
  by destruct (pending w) as [|? [|? [|? ?]]].
Qed.

Lemma SeedUsers_eq (w : World) :
  SeedUsers w =
    if faulty w
    then (inl (QueryError "failed to count users" ErrBadConn),
          next w (server w))
    else if 0 <? Z.of_nat (size (users (server w)))
    then (inr tt, next w (arrives w))
    else seed_loop initialUsers (next w (arrives w)).
Proof.
  unfold SeedUsers, bind. rewrite GetUsersCount_eq.
  destruct (faulty w); [done|]. by destruct (0 <? _).
Qed.

(** The loop stops at the first [CreateUser] that fails: the error names the
    entry and wraps the cause, and the world is the one that call left. *)
Lemma seed_loop_failure (l : list (string * string)) (w w' : World)
    (err : error) :
  seed_loop l w = (inl err, w') ->
  exists created name email rest cause w1,
    l = (created ++ (name, email) :: rest)%list /\
    seed_loop created w = (inr tt, w1) /\
    CreateUser name email w1 = (inl cause, w') /\
    err = SeedError name cause.
Proof.
  revert w. induction l as [|[name email] rest IH]; intros w; [done|].
  simpl. destruct (CreateUser name email w) as [[cause|u] w1] eqn:Hc.
  - intros [= <- <-]. by exists [], name, email, rest, cause, w.
  - intros Hrest.
    apply IH in Hrest
      as (created & name' & email' & rest' & cause & w2 & -> & Hpre & Hfail & ->).
    exists ((name, email) :: created), name', email', rest', cause, w2.
    repeat split; try done. simpl. by rewrite Hc.
Qed.

Lemma not_in_use_insert (email : string) (m : gmap Z Row) (i : Z) (r : Row) :
  ~ email_in_use email m -> ~ same_email (r_email r) email ->
  ~ email_in_use email (<[i := r]> m).
Proof.
  intros Hfree Hne (j & rj & Hj & Hsame).
  destruct (decide (i = j)) as [->|Hij].
  - rewrite lookup_insert_eq in Hj. by inversion Hj; subst.
  - rewrite lookup_insert_ne in Hj by done. apply Hfree. by exists j, rj.
Qed.

(** With a quiet storage the loop creates every entry, provided the entries
    fit, differ from one another and from what the table holds. *)
Lemma seed_loop_calm (l : list (string * string)) (w : World) :
  ids_allocated (server w) ->
  calm (3 * length l) (pending w) = true ->
  Forall (fun p => varchar255 p.1 = true /\ varchar255 p.2 = true) l ->
  NoDup ((fun p : string * string => weight_string p.2) <$> l) ->
  Forall (fun p => ~ email_in_use p.2 (users (server w))) l ->
  exists w', seed_loop l w = (inr tt, w').
Proof.
  revert w. induction l as [|[name email] rest IH];
    intros w Hids Hcalm Hfit Hnodup Hfree; [by eexists|].
  apply Forall_cons in Hfit as [[Hn He] Hfit].
  apply Forall_cons in Hfree as [Hfree1 Hfree].
  apply NoDup_cons in Hnodup as [Hnotin Hnodup].
  simpl in Hn, He, Hfree1, Hnotin.
  replace (3 * length ((name, email) :: rest))%nat
    with (3 + 3 * length rest)%nat in Hcalm by (simpl; lia).
  destruct (CreateUser_calm name email w) as (u & w1 & Hrun); try done.
  { eapply calm_le; [|done]. lia. }
  { by apply ids_allocated_fresh. }
  simpl. rewrite Hrun.
  apply IH; try done.
  - exact (keeps_CreateUser ids_allocated ids_allocated_advance
             insert_keeps_ids_allocated name email w (inr u) w1 Hrun Hids).
  - rewrite (CreateUser_ok_pending _ _ _ _ _ Hrun). by apply calm_drop.
  - apply CreateUser_ok_inv in Hrun as (t & _ & _ & _ & -> & _).
    apply Forall_forall. intros [name' email'] Hin. simpl.
    apply not_in_use_insert.
    + by apply (proj1 (Forall_forall _ _) Hfree (name', email')).
    + simpl. unfold same_email. intros Hsame. apply Hnotin.
      rewrite Hsame. apply list_elem_of_fmap. by exists (name', email').
Qed.

Lemma size_seeded_table (a t1 t2 t3 : Z) : size (seeded_table a t1 t2 t3) = 3%nat.
Proof.
  unfold seeded_table.
  rewrite !map_size_insert_None, map_size_empty; [done|..].
  - done.
  - rewrite lookup_insert_ne by lia. done.
  - rewrite !lookup_insert_ne by lia. done.
Qed.

(** A seeding that went through on an empty table has made the three rows. *)
Lemma SeedUsers_ok_inv (w w' : World) :
  users (server w) = ∅ ->
  SeedUsers w = (inr tt, w') ->
  exists t1 t2 t3,
    users (server w') = seeded_table (auto_increment (server w)) t1 t2 t3.
Proof.
  intros Hempty. rewrite SeedUsers_eq. destruct (faulty w); [done|].
  rewrite Hempty, map_size_empty. simpl (0 <? _). cbv iota.
  set (w0 := next w (arrives w)).
  assert (Husers0 : users (server w0) = ∅).
  { simpl. by rewrite users_arrives. }
  assert (Haut0 : auto_increment (server w0) = auto_increment (server w)).
  { simpl. by rewrite auto_increment_arrives. }
  simpl.
  destruct (CreateUser _ _ w0) as [[e1|u1] w1] eqn:H1; [done|].
  destruct (CreateUser _ _ w1) as [[e2|u2] w2] eqn:H2; [done|].
  destruct (CreateUser _ _ w2) as [[e3|u3] w3] eqn:H3; [done|].
  intros [= <-].
  apply CreateUser_ok_inv in H1 as (t1 & _ & _ & _ & Hu1 & Ha1 & _).
  apply CreateUser_ok_inv in H2 as (t2 & _ & _ & _ & Hu2 & Ha2 & _).
  apply CreateUser_ok_inv in H3 as (t3 & _ & _ & _ & Hu3 & Ha3 & _).
  exists t1, t2, t3. unfold seeded_table.
  rewrite Hu3, Hu2, Hu1, Husers0, Ha2, Ha1, Haut0.
  by replace (auto_increment (server w) + 1 + 1)
    with (auto_increment (server w) + 2) by lia.
Qed.

(** C7. seedDefaults creates users only when the user count is zero; on an
    empty table, with a quiet storage, it creates exactly the three fixed
    users; a run on a table that is not empty (such as a second run) returns
    without error, leaves the table as it is and the count at 3 after
    a first run; and when a creation fails, the error of that creation is
    returned, wrapped with the entry's name, and the entries after it are not
    attempted. *)
Theorem SeedUsers_spec :
  (* a table with rows is left alone *)
  (forall w r w',
     users (server w) <> ∅ -> SeedUsers w = (r, w') ->
     users (server w') = users (server w) /\
     auto_increment (server w') = auto_increment (server w) /\
     (faulty w = false -> r = inr tt)) /\
  (* an empty table receives the three users *)
  (forall w,
     users (server w) = ∅ -> ids_allocated (server w) -> seeds_distinct ->
     calm 10 (pending w) = true ->
     exists w' t1 t2 t3,
       SeedUsers w = (inr tt, w') /\
       users (server w') = seeded_table (auto_increment (server w)) t1 t2 t3 /\
       size (users (server w')) = 3%nat) /\
  (* the second run *)
  (forall w w1,
     users (server w) = ∅ -> SeedUsers w = (inr tt, w1) ->
     calm 2 (pending w1) = true ->
     exists w2 w3,
       SeedUsers w1 = (inr tt, w2) /\
       users (server w2) = users (server w1) /\
       GetUsersCount w2 = (inr 3, w3)) /\
  (* a failing creation *)
  (forall w err w',
     users (server w) = ∅ -> SeedUsers w = (inl err, w') ->
     err = QueryError "failed to count users" ErrBadConn \/
     exists created name email rest cause w1,
       initialUsers = (created ++ (name, email) :: rest)%list /\
       seed_loop created (next w (arrives w)) = (inr tt, w1) /\
       CreateUser name email w1 = (inl cause, w') /\
       err = SeedError name cause).
Proof.
  split; [|split; [|split]].
  - intros w r w' Hrows. rewrite SeedUsers_eq.
    destruct (faulty w); [by intros [= <- <-]|].
    apply map_size_non_empty_iff in Hrows.
    destruct (0 <? Z.of_nat (size (users (server w)))) eqn:Hpos.
    + intros [= <- <-]. simpl.
      by rewrite users_arrives, auto_increment_arrives.
    + apply Z.ltb_ge in Hpos. lia.
  - intros w Hempty Hids Hdistinct Hcalm.
    assert (exists w', SeedUsers w = (inr tt, w')) as [w' Hrun].
    { rewrite SeedUsers_eq. apply calm_next in Hcalm as [-> Hcalm].
      rewrite Hempty, map_size_empty. simpl (0 <? _). cbv iota.
      apply seed_loop_calm.
      - simpl. by apply keeps_arrives; [apply ids_allocated_advance|].
      - done.
      - by repeat constructor.
      - done.
      - simpl. rewrite users_arrives, Hempty.
        repeat constructor; by intros (i & r & Hi & _). }
    destruct (SeedUsers_ok_inv w w' Hempty Hrun) as (t1 & t2 & t3 & Husers).
    exists w', t1, t2, t3. repeat split; try done.
    rewrite Husers. apply size_seeded_table.
  - intros w w1 Hempty Hfirst Hcalm.
    destruct (SeedUsers_ok_inv w w1 Hempty Hfirst) as (t1 & t2 & t3 & Husers).
    pose proof (size_seeded_table (auto_increment (server w)) t1 t2 t3) as Hsize.
    rewrite <- Husers in Hsize.
    apply calm_next in Hcalm as [Hok Hcalm].
    rewrite SeedUsers_eq, Hok, Hsize. simpl (0 <? _). cbv iota.
    eexists _, _. split; [done|]. split; [simpl; apply users_arrives|].
    rewrite GetUsersCount_eq.
    apply (calm_next 0 (next w1 (arrives w1))) in Hcalm as [-> _].
    simpl. by rewrite users_arrives, Hsize.
  - intros w err w' Hempty. rewrite SeedUsers_eq.
    destruct (faulty w); [intros [= <- _]; by left|].
    rewrite Hempty, map_size_empty. simpl (0 <? _). cbv iota.
    intros Hloop. right. by apply seed_loop_failure.
Qed.

(** * Further properties of the repository *)

(** ** Listing *)

Lemma insert_desc_perm (u : User) (l : list User) : insert_desc u l ≡ₚ u :: l.
Proof.
  induction l as [|v t IH]; [done|]. simpl.
  destruct (CreatedAt v <? CreatedAt u); [done|].
  rewrite IH. apply Permutation_swap.
Qed.

Lemma order_by_created_at_desc_perm (l : list User) :
  order_by_created_at_desc l ≡ₚ l.
Proof.
  induction l as [|u t IH]; [done|]. simpl.
  by rewrite insert_desc_perm, IH.
Qed.




(** ** Reading back what was written *)

(** X2. getUser on the id of a freshly created user returns a user equal to
    the one createUser returned. *)
Theorem GetUserByID_after_CreateUser (name email : string) (w w1 : World)
    (u : User) :
  CreateUser name email w = (inr u, w1) ->
  calm 1 (pending w1) = true ->
  exists w2, GetUserByID (ID u) w1 = (inr u, w2).
Proof.
  intros Hcreate Hcalm.
  apply CreateUser_ok_inv in Hcreate as (t & -> & _ & _ & Husers & _).
  rewrite GetUserByID_eq. apply calm_next in Hcalm as [-> _].
  simpl. rewrite Husers, lookup_insert_eq. eauto.
Qed.


(** X4. For an id no user has, deleteUser returns NotFoundError and removes
    nothing. *)
Theorem DeleteUser_unknown_id (id : Z) (w : World) :
  users (server w) !! id = None ->
  calm 1 (pending w) = true ->
  exists w', DeleteUser id w = (inl (NotFoundError id), w') /\
             users (server w') = users (server w).
Proof.
  intros Hid Hcalm. rewrite DeleteUser_eq.
  apply calm_next in Hcalm as [-> _]. cbv zeta. rewrite Hid.
  eexists. split; [done|]. apply users_arrives.
Qed.

(** ** Ids *)

Lemma counter_advance (a : Z) dt s :
  a <= auto_increment s -> a <= auto_increment (advance dt s).
Proof. done. Qed.

Lemma insert_keeps_counter (a : Z) name email s r s' :
  insert_user name email s = (r, s') ->
  a <= auto_increment s -> a <= auto_increment s'.
Proof.
  unfold insert_user. intros Hins Ha.
  destruct (negb _); [by inversion Hins; subst|].
  destruct (decide _); [inversion Hins; subst; simpl; lia|].
  destruct (decide _); inversion Hins; subst; simpl; lia.
Qed.

Lemma update_keeps_counter (a : Z) name email id s r s' :
  update_user name email id s = (r, s') ->
  a <= auto_increment s -> a <= auto_increment s'.
Proof.
  destruct r as [e|res]; intros Hupd Ha.
  - by rewrite (update_user_failed _ _ _ _ _ _ Hupd).
  - by apply update_user_ok in Hupd
      as [(_ & -> & _)|(r & _ & _ & _ & _ & ->)].
Qed.

Lemma delete_keeps_counter (a : Z) id s r s' :
  delete_user id s = (r, s') ->
  a <= auto_increment s -> a <= auto_increment s'.
Proof.
  unfold delete_user. intros Hdel Ha.
  by destruct (users s !! id); inversion Hdel; subst.
Qed.

(** X5. Ids are never handed out twice: whatever calls to the repository
    are made in between (deletions included, failed calls included), a user
    created later gets an id greater than every id the table has held
    before. *)
Theorem ids_never_reused (cs : list call) (w w' : World)
    (name email : string) (u : User) :
  ids_allocated (server w) ->
  CreateUser name email (run_calls cs w) = (inr u, w') ->
  forall i, is_Some (users (server w) !! i) -> i < ID u.
Proof.
  intros [Hpos Hids] Hcreate i [ri Hi].
  pose proof (Hids _ _ Hi) as Hrange. simpl in Hrange.
  assert (Hcounter : auto_increment (server w)
                     <= auto_increment (server (run_calls cs w))).
  { refine (keeps_run_calls
              (fun s => auto_increment (server w) <= auto_increment s)
              (counter_advance _) (insert_keeps_counter _)
              (update_keeps_counter _) (delete_keeps_counter _) cs w _).
    lia. }
  apply CreateUser_ok_inv in Hcreate as (t & -> & _). simpl. lia.
Qed.

(** ** The probe and the index *)

(** X6. The probes keep the storage's own key checks from firing: with ids
    allocated below the counter, neither createUser nor updateUser ever
    returns the server's duplicate-entry error. *)
Theorem duplicate_entry_never_surfaces :
  (forall name email w e w',
     ids_allocated (server w) ->
     CreateUser name email w = (inl e, w') ->
     forall context, e <> QueryError context ErrDuplicateEntry) /\
  (forall id name email w e w',
     UpdateUser id name email w = (inl e, w') ->
     forall context, e <> QueryError context ErrDuplicateEntry).
Proof.
  split.
  - intros name email w e w' Hids. rewrite CreateUser_eq.
    destruct (faulty w); [by intros [= <- _]|]. cbv zeta.
    case_bool_decide as Hfree; [by intros [= <- _]|].
    set (w1 := next w (arrives w)).
    destruct (faulty w1); [by intros [= <- _]|].
    assert (Haut : auto_increment (arrives w1) = auto_increment (server w)).
    { by rewrite auto_increment_arrives; simpl; rewrite auto_increment_arrives. }
    assert (Husers : users (arrives w1) = users (server w)).
    { by rewrite users_arrives; simpl; rewrite users_arrives. }
    unfold insert_user. rewrite Haut, Husers.
    destruct (negb _); [by intros [= <- _]|].
    destruct (decide (is_Some _)) as [Hpk|_].
    { rewrite (ids_allocated_fresh _ Hids) in Hpk. by destruct Hpk. }
    destruct (decide (email_in_use _ _)) as [|_]; [done|].
    rewrite GetUserByID_eq. destruct (faulty _); [by intros [= <- _]|].
    simpl. rewrite lookup_insert_eq. done.
  - intros id name email w e w'. rewrite UpdateUser_eq.
    destruct (faulty w); [by intros [= <- _]|]. cbv zeta.
    destruct (users (server w) !! id) as [r|] eqn:Hid; [|by intros [= <- _]].
    set (w1 := next w (arrives w)).
    destruct (faulty w1); [by intros [= <- _]|].
    case_bool_decide as Hfree; [by intros [= <- _]|].
    set (w2 := next w1 (arrives w1)).
    destruct (faulty w2); [by intros [= <- _]|].
    assert (Husers : users (arrives w2) = users (server w)).
    { rewrite users_arrives. simpl. rewrite users_arrives. simpl.
      by rewrite users_arrives. }
    unfold update_user. rewrite Husers, Hid.
    destruct (negb _); [by intros [= <- _]|].
    destruct (decide (email_in_use_by_other _ _ _)) as [|_]; [done|].
    rewrite GetUserByID_eq. destruct (faulty _); [by intros [= <- _]|].
    simpl. rewrite lookup_insert_eq. done.
Qed.

(** X7. createUser treats an email as taken when the column's collation
    equates it with a stored one, even if the strings differ: after a
    successful createUser, creating with any email of the same weight returns
    ConflictError carrying the email that was asked for. *)
Theorem CreateUser_collation_conflict (name name' email email' : string)
    (w w1 : World) (u : User) :
  CreateUser name email w = (inr u, w1) ->
  same_email email email' ->
  calm 1 (pending w1) = true ->
  exists w2, CreateUser name' email' w1 = (inl (ConflictError email'), w2).
Proof.
  intros Hfirst Hsame Hcalm.
  apply CreateUser_ok_inv in Hfirst as (t & _ & _ & _ & Husers & _).
  rewrite CreateUser_eq. apply calm_next in Hcalm as [-> _]. cbv zeta.
  rewrite bool_decide_eq_true_2; [eauto|].
  exists (auto_increment (server w)), (mkRow name email t t).
  split; [|done]. by rewrite Husers, lookup_insert_eq.
Qed.

(** ** Counting *)

(** X8. A successful createUser adds exactly one row, a successful
    deleteUser removes exactly one, and a successful updateUser leaves the
    number of rows as it is. *)
Theorem writes_and_count :
  (forall name email w u w',
     CreateUser name email w = (inr u, w') ->
     size (users (server w')) = S (size (users (server w)))) /\
  (forall id name email w u w',
     UpdateUser id name email w = (inr u, w') ->
     size (users (server w')) = size (users (server w))) /\
  (forall id w w',
     DeleteUser id w = (inr tt, w') ->
     S (size (users (server w'))) = size (users (server w))).
Proof.
  split; [|split].
  - intros name email w u w' Hrun.
    apply CreateUser_ok_inv in Hrun as (t & _ & Hfresh & _ & -> & _).
    by apply map_size_insert_None.
  - intros id name email w u w' Hrun.
    apply UpdateUser_ok_inv in Hrun as (r & t & Hid & _ & _ & -> & _).
    apply map_size_insert_Some. by exists r.
  - intros id w w' Hrun.
    apply DeleteUser_ok_inv in Hrun as ([r Hid] & -> & _).
    rewrite map_size_delete_Some by (by exists r).
    assert (size (users (server w)) <> 0%nat); [|lia].
    apply map_size_ne_0_lookup. by exists id, r.
Qed.

(** ** Timestamps *)

(** X9. updated_at is never before created_at: starting from a table where
    this holds and no row is stamped in the future, after any calls to the
    repository (successful or not) every user that listUsers returns has
    created_at <= updated_at. *)
Theorem listed_users_timestamps (cs : list call) (w w' : World)
    (l : list User) :
  timestamps_ordered (server w) ->
  GetAllUsers (run_calls cs w) = (inr l, w') ->
  Forall (fun u => CreatedAt u <= UpdatedAt u) l.
Proof.
  intros Hts Hlist.
  assert (Hts1 : timestamps_ordered (server (run_calls cs w))).
  { exact (keeps_run_calls timestamps_ordered timestamps_ordered_advance
             insert_keeps_timestamps_ordered update_keeps_timestamps_ordered
             delete_keeps_timestamps_ordered cs w Hts). }
  rewrite GetAllUsers_eq in Hlist.
  destruct (faulty (run_calls cs w)); [done|].
  injection Hlist as <- _. unfold select_users.
  rewrite order_by_created_at_desc_perm.
  apply Forall_fmap, Forall_forall. intros [i ri] Hin.
  apply elem_of_map_to_list in Hin.
  pose proof (Hts1 _ _ Hin) as Hrow. simpl in *. lia.
Qed.

(** ** Emails, as a caller sees them *)

(** X26. No listing ever shows one email twice: starting from a table in
    which no two rows share an email, after any calls to the repository
    (reads, writes and seeding, successful or not) two users that listUsers
    returns with emails the collation equates are the same user. *)
Theorem listed_emails_unique (cs : list call) (w w' : World) (l : list User) :
  emails_unique (users (server w)) ->
  GetAllUsers (run_calls cs w) = (inr l, w') ->
  forall u v, u ∈ l -> v ∈ l -> same_email (Email u) (Email v) -> u = v.
Proof.
  intros Huniq Hlist.
  assert (Huniq1 : emails_unique (users (server (run_calls cs w)))).
  { exact (keeps_run_calls (fun s => emails_unique (users s))
             (fun _ _ H => H) insert_keeps_emails_unique
             update_keeps_emails_unique delete_keeps_emails_unique
             cs w Huniq). }
  rewrite GetAllUsers_eq in Hlist.
  destruct (faulty (run_calls cs w)); [done|].
  injection Hlist as <- _. unfold select_users.
  intros u v. rewrite !order_by_created_at_desc_perm, !list_elem_of_fmap.
  intros ([i ri] & -> & Hi) ([j rj] & -> & Hj) Hsame.
  apply elem_of_map_to_list in Hi, Hj. simpl in Hsame.
  assert (i = j) as <- by exact (Huniq1 _ _ Hi _ _ Hj Hsame).
  by simplify_eq.
Qed.

(** * The HTTP layer *)

(** ** The message of an error tells its kind *)

(** The handlers recognise an error by comparing [err.Error()] with the
    message they expect.  Whatever the driver's texts and the rendering of
    numbers are, the comparison picks out exactly the intended error among
    those the repository call can return. *)

Lemma CreateUser_conflict_text (name email : string) (w w' : World)
    (e : error) :
  CreateUser name email w = (inl e, w') ->
  Error e = "user with email '" ++ email ++ "' already exists" <->
  e = ConflictError email.
Proof.
  intros Hrun. split; [|by intros ->]. revert Hrun. rewrite CreateUser_eq.
  destruct (faulty w); [by intros [= <- _]|]. cbv zeta.
  destruct (bool_decide _); [by intros [= <- _]|].
  destruct (faulty _); [by intros [= <- _]|].
  destruct (insert_user name email _) as [[c|res] s2]; [by intros [= <- _]|].
  rewrite GetUserByID_eq. destruct (faulty _); [by intros [= <- _]|].
  simpl. by destruct (users s2 !! LastInsertId res); intros [= <- _].
Qed.

Lemma UpdateUser_error_text (id : Z) (name email : string) (w w' : World)
    (e : error) :
  UpdateUser id name email w = (inl e, w') ->
  (Error e = "user with ID " ++ itoa id ++ " not found" <->
   e = NotFoundError id) /\
  (Error e = "user with email '" ++ email ++ "' already exists" <->
   e = ConflictError email).
Proof.
  rewrite UpdateUser_eq.
  destruct (faulty w); [by intros [= <- _]|]. cbv zeta.
  destruct (users (server w) !! id); [|by intros [= <- _]].
  destruct (faulty _); [by intros [= <- _]|].
  destruct (bool_decide _); [by intros [= <- _]|].
  destruct (faulty _); [by intros [= <- _]|].
  destruct (update_user name email id _) as [[c|res] s3];
    [by intros [= <- _]|].
  rewrite GetUserByID_eq. destruct (faulty _); [by intros [= <- _]|].
  simpl. by destruct (users s3 !! id); intros [= <- _].
Qed.

Lemma DeleteUser_not_found_text (id : Z) (w w' : World) (e : error) :
  DeleteUser id w = (inl e, w') ->
  Error e = "user with ID " ++ itoa id ++ " not found" <->
  e = NotFoundError id.
Proof.
  rewrite DeleteUser_eq.
  destruct (faulty w); [by intros [= <- _]|]. cbv zeta.
  destruct (users (server w) !! id); [|by intros [= <- _]].
  destruct (faulty _); [by intros [= <- _]|].
  destruct (delete_user id _) as [[c|res] s2]; [by intros [= <- _]|].
  by destruct (RowsAffected res =? 0); intros [= <- _].
Qed.

(** ** What the status code says *)

(** X10. createUserHandler answers 400, 201, 409 or 500: 400 exactly when the
    body does not decode or decodes to an empty name or email; 201 exactly
    when CreateUser succeeds, with the created user as data; 409 exactly
    when CreateUser returns the conflict error; and 500 for every other
    failure. *)
Theorem createUserHandler_status (r : Request) (now : Z) (w w' : World)
    (out : Outcome) :
  createUserHandler r now w = (out, w') ->
  (StatusCode (reply out) = 400 \/ StatusCode (reply out) = 201 \/
   StatusCode (reply out) = 409 \/ StatusCode (reply out) = 500) /\
  (StatusCode (reply out) = 400 <->
   forall name email, decode_user_data (body r) = Some (name, email) ->
                      name = "" \/ email = "") /\
  (StatusCode (reply out) = 201 <->
   exists name email u,
     decode_user_data (body r) = Some (name, email) /\
     name <> "" /\ email <> "" /\
     CreateUser name email w = (inr u, w') /\
     Data (Body (reply out)) = UserData u) /\
  (StatusCode (reply out) = 409 <->
   exists name email,
     decode_user_data (body r) = Some (name, email) /\
     name <> "" /\ email <> "" /\
     CreateUser name email w = (inl (ConflictError email), w')).
Proof.
  unfold createUserHandler.
  destruct (decode_user_data (body r)) as [[name email]|] eqn:Hdecode.
  2:{ intros [= <- <-]. simpl. unfold StatusBadRequest.
      split; [by left|]. split; [by split|]. split; split; try done; refute. }
  case_bool_decide as Hname; simpl.
  { intros [= <- <-]. simpl. unfold StatusBadRequest.
    split; [by left|]. split.
    { split; [|done]. intros _ ? ? [= <- <-]. by left. }
    split; split; try done; refute. }
  case_bool_decide as Hemail; simpl.
  { intros [= <- <-]. simpl. unfold StatusBadRequest.
    split; [by left|]. split.
    { split; [|done]. intros _ ? ? [= <- <-]. by right. }
    split; split; try done; refute. }
  assert (Hvalid : ~ (forall name0 email0 : string,
                        Some (name, email) = Some (name0, email0) ->
                        name0 = "" \/ email0 = "")).
  { intros Hall. by destruct (Hall name email eq_refl). }
  destruct (CreateUser name email w) as [[e|u] w1] eqn:Hrun.
  - pose proof (CreateUser_conflict_text _ _ _ _ _ Hrun) as Htext.
    case_bool_decide as Hconflict; intros [= <- <-]; simpl;
      unfold StatusConflict, StatusInternalServerError.
    + apply Htext in Hconflict as ->.
      split; [by right; right; left|]. split; [by split|].
      split; split; try done; try refute.
      intros _. by exists name, email.
    + split; [by right; right; right|]. split; [by split|].
      split; split; try done; try refute.
      intros (? & ? & [= <- <-] & _ & _ & Hc).
      rewrite Hrun in Hc. injection Hc as ->. destruct Hconflict.
      by apply Htext.
  - intros [= <- <-]. simpl. unfold StatusCreated.
    split; [by right; left|]. split; [by split|].
    split; split; try done; try refute.
    intros _. by exists name, email, u.
Qed.

(** X11. updateUserHandler answers 400 exactly when the id, the body or the
    fields are not acceptable; 404 exactly when UpdateUser returns the
    not-found error; 409 exactly when it returns the conflict error; 200
    exactly when it succeeds, with the updated user as data; and 500 for
    every other failure. *)
Theorem updateUserHandler_status (r : Request) (now : Z) (w w' : World)
    (out : Outcome) :
  updateUserHandler r now w = (out, w') ->
  (StatusCode (reply out) = 400 \/ StatusCode (reply out) = 200 \/
   StatusCode (reply out) = 404 \/ StatusCode (reply out) = 409 \/
   StatusCode (reply out) = 500) /\
  (StatusCode (reply out) = 400 <->
   forall id name email,
     Atoi (vars_id r) = Some id ->
     decode_user_data (body r) = Some (name, email) ->
     name = "" \/ email = "") /\
  (StatusCode (reply out) = 200 <->
   exists id name email u,
     Atoi (vars_id r) = Some id /\
     decode_user_data (body r) = Some (name, email) /\
     name <> "" /\ email <> "" /\
     UpdateUser id name email w = (inr u, w') /\
     Data (Body (reply out)) = UserData u) /\
  (StatusCode (reply out) = 404 <->
   exists id name email,
     Atoi (vars_id r) = Some id /\
     decode_user_data (body r) = Some (name, email) /\
     name <> "" /\ email <> "" /\
     UpdateUser id name email w = (inl (NotFoundError id), w')) /\
  (StatusCode (reply out) = 409 <->
   exists id name email,
     Atoi (vars_id r) = Some id /\
     decode_user_data (body r) = Some (name, email) /\
     name <> "" /\ email <> "" /\
     UpdateUser id name email w = (inl (ConflictError email), w')).
Proof.
  unfold updateUserHandler.
  destruct (Atoi (vars_id r)) as [id|] eqn:Hid.
  2:{ intros [= <- <-]. simpl. unfold StatusBadRequest.
      split; [by left|]. split; [by split|].
      repeat split; try done; refute. }
  destruct (decode_user_data (body r)) as [[name email]|] eqn:Hdecode.
  2:{ intros [= <- <-]. simpl. unfold StatusBadRequest.
      split; [by left|]. split; [by split|].
      repeat split; try done; refute. }
  case_bool_decide as Hname; simpl.
  { intros [= <- <-]. simpl. unfold StatusBadRequest.
    split; [by left|]. split.
    { split; [|done]. intros _ ? ? ? _ [= <- <-]. by left. }
    repeat split; try done; refute. }
  case_bool_decide as Hemail; simpl.
  { intros [= <- <-]. simpl. unfold StatusBadRequest.
    split; [by left|]. split.
    { split; [|done]. intros _ ? ? ? _ [= <- <-]. by right. }
    repeat split; try done; refute. }
  assert (Hvalid : ~ (forall (id0 : Z) (name0 email0 : string),
                        Some id = Some id0 ->
                        Some (name, email) = Some (name0, email0) ->
                        name0 = "" \/ email0 = "")).
  { intros Hall. by destruct (Hall id name email eq_refl eq_refl). }
  destruct (UpdateUser id name email w) as [[e|u] w1] eqn:Hrun.
  - destruct (UpdateUser_error_text _ _ _ _ _ _ Hrun) as [Hnf Hcf].
    case_bool_decide as Hnotfound; [|case_bool_decide as Hconflict];
      intros [= <- <-]; simpl;
      unfold StatusNotFound, StatusConflict, StatusInternalServerError.
    + apply Hnf in Hnotfound as ->.
      split; [by right; right; left|]. split; [by split|].
      repeat split; try done; try refute.
      intros _. by exists id, name, email.
    + apply Hcf in Hconflict as ->.
      split; [by right; right; right; left|]. split; [by split|].
      repeat split; try done; try refute.
      intros _. by exists id, name, email.
    + split; [by right; right; right; right|]. split; [by split|].
      repeat split; try done; try refute.
      * intros (? & ? & ? & [= <-] & [= <- <-] & _ & _ & Hc).
        rewrite Hrun in Hc. injection Hc as ->. destruct Hnotfound.
        by apply Hnf.
      * intros (? & ? & ? & [= <-] & [= <- <-] & _ & _ & Hc).
        rewrite Hrun in Hc. injection Hc as ->. destruct Hconflict.
        by apply Hcf.
  - intros [= <- <-]. simpl. unfold StatusOK.
    split; [by right; left|]. split; [by split|].
    repeat split; try done; try refute.
    intros _. by exists id, name, email, u.
Qed.

(** X12. deleteUserHandler answers 400 exactly when the id does not parse,
    404 exactly when DeleteUser returns the not-found error, 200 exactly
    when it succeeds, in which case the row of that id is gone and no other
    row is touched, and 500 for every other failure. *)
Theorem deleteUserHandler_status (r : Request) (now : Z) (w w' : World)
    (out : Outcome) :
  deleteUserHandler r now w = (out, w') ->
  (StatusCode (reply out) = 400 \/ StatusCode (reply out) = 200 \/
   StatusCode (reply out) = 404 \/ StatusCode (reply out) = 500) /\
  (StatusCode (reply out) = 400 <-> Atoi (vars_id r) = None) /\
  (StatusCode (reply out) = 404 <->
   exists id, Atoi (vars_id r) = Some id /\
              DeleteUser id w = (inl (NotFoundError id), w')) /\
  (StatusCode (reply out) = 200 <->
   exists id, Atoi (vars_id r) = Some id /\
              DeleteUser id w = (inr tt, w') /\
              users (server w') = delete id (users (server w))).
Proof.
  unfold deleteUserHandler.
  destruct (Atoi (vars_id r)) as [id|] eqn:Hid.
  2:{ intros [= <- <-]. simpl. unfold StatusBadRequest.
      split; [by left|]. split; [by split|].
      repeat split; try done; refute. }
  destruct (DeleteUser id w) as [[e|[]] w1] eqn:Hrun.
  - pose proof (DeleteUser_not_found_text _ _ _ _ Hrun) as Htext.
    case_bool_decide as Hnotfound; intros [= <- <-]; simpl;
      unfold StatusNotFound, StatusInternalServerError.
    + apply Htext in Hnotfound as ->.
      split; [by right; right; left|]. split; [by split|].
      repeat split; try done; try refute.
      intros _. by exists id.
    + split; [by right; right; right|]. split; [by split|].
      repeat split; try done; try refute.
      intros (? & [= <-] & Hc).
      rewrite Hrun in Hc. injection Hc as ->. destruct Hnotfound.
      by apply Htext.
  - intros [= <- <-]. simpl. unfold StatusOK.
    pose proof (DeleteUser_ok_inv _ _ _ Hrun) as (_ & Husers & _).
    split; [by right; left|]. split; [by split|].
    repeat split; try done; try refute.
    intros _. by exists id.
Qed.

(** ** What an answer says about the table *)

(** X13. An answer in the 400 range from the create, update or delete handler
    means the users table (rows and AUTO_INCREMENT counter) is as it was
    before the request; with 400 itself the storage was not even
    contacted. *)
Theorem client_errors_leave_table (r : Request) (now : Z) (w w' : World)
    (out : Outcome) :
  createUserHandler r now w = (out, w') \/
  updateUserHandler r now w = (out, w') \/
  deleteUserHandler r now w = (out, w') ->
  400 <= StatusCode (reply out) < 500 ->
  users (server w') = users (server w) /\
  auto_increment (server w') = auto_increment (server w) /\
  (StatusCode (reply out) = 400 -> w' = w).
Proof.
  intros [Hrun|[Hrun|Hrun]]; revert Hrun.
  - unfold createUserHandler.
    destruct (decode_user_data (body r)) as [[name email]|];
      [|by intros [= <- <-]].
    destruct (bool_decide (name = "") || bool_decide (email = ""));
      [by intros [= <- <-]|].
    destruct (CreateUser name email w) as [[e|u] w1] eqn:Hrun.
    + pose proof (CreateUser_conflict_text _ _ _ _ _ Hrun) as Htext.
      case_bool_decide as Hconflict; intros [= <- <-]; simpl;
        unfold StatusConflict, StatusInternalServerError; [|lia].
      apply Htext in Hconflict as ->.
      apply CreateUser_conflict_inv in Hrun as (_ & _ & ->). intros _.
      split; [apply users_arrives|].
      split; [apply auto_increment_arrives|done].
    + intros [= <- <-]. simpl. unfold StatusCreated. lia.
  - unfold updateUserHandler.
    destruct (Atoi (vars_id r)) as [id|]; [|by intros [= <- <-]].
    destruct (decode_user_data (body r)) as [[name email]|];
      [|by intros [= <- <-]].
    destruct (bool_decide (name = "") || bool_decide (email = ""));
      [by intros [= <- <-]|].
    destruct (UpdateUser id name email w) as [[e|u] w1] eqn:Hrun.
    + destruct (UpdateUser_error_text _ _ _ _ _ _ Hrun) as [Hnf Hcf].
      case_bool_decide as Hnotfound; [|case_bool_decide as Hconflict];
        intros [= <- <-]; simpl;
        unfold StatusNotFound, StatusConflict, StatusInternalServerError;
        [| |lia]; intros _.
      * apply Hnf in Hnotfound as ->.
        apply UpdateUser_not_found_inv in Hrun as (_ & _ & ->).
        split; [apply users_arrives|].
        split; [apply auto_increment_arrives|done].
      * apply Hcf in Hconflict as ->.
        apply UpdateUser_conflict_inv in Hrun as (_ & _ & _ & ->). simpl.
        split; [rewrite users_arrives; simpl; apply users_arrives|].
        split; [|done].
        rewrite auto_increment_arrives. simpl. apply auto_increment_arrives.
    + intros [= <- <-]. simpl. unfold StatusOK. lia.
  - unfold deleteUserHandler.
    destruct (Atoi (vars_id r)) as [id|]; [|by intros [= <- <-]].
    destruct (DeleteUser id w) as [[e|[]] w1] eqn:Hrun.
    + pose proof (DeleteUser_not_found_text _ _ _ _ Hrun) as Htext.
      case_bool_decide as Hnotfound; intros [= <- <-]; simpl;
        unfold StatusNotFound, StatusInternalServerError; [|lia].
      apply Htext in Hnotfound as ->.
      apply DeleteUser_not_found_inv in Hrun as (_ & _ & ->). intros _.
      split; [apply users_arrives|].
      split; [apply auto_increment_arrives|done].
    + intros [= <- <-]. simpl. unfold StatusOK. lia.
Qed.

(** X14. A 500 from createUserHandler does not mean nothing was written: when
    the probe and the INSERT go through and the round trip that reads the
    new row back fails, the handler answers 500 "Failed to create user" and
    the user is in the table. *)
Theorem createUserHandler_500_after_write (r : Request) (now : Z) (w : World)
    (name email : string) (rest : list event) :
  decode_user_data (body r) = Some (name, email) ->
  name <> "" -> email <> "" ->
  varchar255 name = true -> varchar255 email = true ->
  ids_allocated (server w) ->
  ~ email_in_use email (users (server w)) ->
  calm 2 (pending w) = true ->
  drop 2 (pending w) = Fault :: rest ->
  exists out w' t,
    createUserHandler r now w = (out, w') /\
    reply out = sendJSONResponse now 500 "Failed to create user" NoData /\
    users (server w') =
      <[auto_increment (server w) := mkRow name email t t]>
        (users (server w)).
Proof.
  intros Hdecode Hname Hemail Hn He Hids Hfree Hcalm Hdrop.
  unfold createUserHandler. rewrite Hdecode.
  rewrite !bool_decide_eq_false_2 by done. simpl.
  rewrite CreateUser_eq.
  apply calm_next in Hcalm as [Hok0 Hcalm]. rewrite Hok0. cbv zeta.
  rewrite bool_decide_eq_false_2 by done.
  set (w1 := next w (arrives w)).
  apply (calm_next 0 w1) in Hcalm as [Hok1 _]. rewrite Hok1.
  assert (Haut : auto_increment (arrives w1) = auto_increment (server w)).
  { by rewrite auto_increment_arrives; simpl; rewrite auto_increment_arrives. }
  assert (Husers : users (arrives w1) = users (server w)).
  { by rewrite users_arrives; simpl; rewrite users_arrives. }
  unfold insert_user. rewrite Hn, He. simpl negb. cbv iota.
  rewrite Haut, Husers.
  destruct (decide (is_Some _)) as [Hpk|_].
  { rewrite (ids_allocated_fresh _ Hids) in Hpk. by destruct Hpk. }
  destruct (decide (email_in_use _ _)) as [|_]; [done|].
  rewrite GetUserByID_eq. set (w2 := next w1 _).
  assert (Hfault : faulty w2 = true).
  { unfold faulty, w2, w1. simpl.
    destruct (pending w) as [|e1 [|e2 l]]; simpl in *; try done.
    rewrite drop_0 in Hdrop. by rewrite Hdrop. }
  rewrite Hfault. rewrite bool_decide_eq_false_2 by done.
  eexists _, _, (clock (arrives w1)). by repeat split.
Qed.

(** X15. getUserByIDHandler never answers 500: it answers 400 when the id
    does not parse, 200 with the user when the lookup succeeds, and 404
    "User not found" for every failure of the lookup, a failure of the
    storage included. *)
Theorem getUserByIDHandler_never_500 (r : Request) (now : Z) (w w' : World)
    (out : Outcome) :
  getUserByIDHandler r now w = (out, w') ->
  (StatusCode (reply out) = 400 \/ StatusCode (reply out) = 200 \/
   StatusCode (reply out) = 404) /\
  (StatusCode (reply out) = 400 <-> Atoi (vars_id r) = None) /\
  (StatusCode (reply out) = 200 <->
   exists id row,
     Atoi (vars_id r) = Some id /\ faulty w = false /\
     users (server w) !! id = Some row /\
     Data (Body (reply out)) = UserData (to_user (id, row))) /\
  (forall id, Atoi (vars_id r) = Some id -> faulty w = true ->
              reply out = sendJSONResponse now 404 "User not found" NoData).
Proof.
  unfold getUserByIDHandler.
  destruct (Atoi (vars_id r)) as [id|] eqn:Hid.
  2:{ intros [= <- <-]. simpl. unfold StatusBadRequest.
      split; [by left|]. split; [by split|].
      repeat split; try done; refute. }
  rewrite GetUserByID_eq. destruct (faulty w) eqn:Hfaulty.
  { intros [= <- <-]. simpl. unfold StatusNotFound.
    split; [by right; right|]. split; [by split|].
    repeat split; try done; try refute. }
  destruct (users (server w) !! id) as [row|] eqn:Hrow;
    intros [= <- <-]; simpl; unfold StatusOK, StatusNotFound.
  - split; [by right; left|]. split; [by split|].
    repeat split; try done; try refute.
    intros _. by exists id, row.
  - split; [by right; right|]. split; [by split|].
    repeat split; try done; try refute.
Qed.

(** X16. The reading handlers (list, get by id, statistics, health) never
    change the users table. *)
Theorem read_handlers_keep_table (r : Request) (stamp now : Z) (w w' : World)
    (out : Outcome) :
  getUsersHandler now w = (out, w') \/
  getUserByIDHandler r now w = (out, w') \/
  getUsersStatsHandler stamp now w = (out, w') \/
  healthHandler stamp now (Some w) = (out, Some w') ->
  users (server w') = users (server w) /\
  auto_increment (server w') = auto_increment (server w).
Proof.
  intros [Hrun|[Hrun|[Hrun|Hrun]]]; revert Hrun.
  - unfold getUsersHandler. rewrite GetAllUsers_eq.
    destruct (faulty w); intros [= _ <-]; simpl; [done|].
    by rewrite users_arrives, auto_increment_arrives.
  - unfold getUserByIDHandler.
    destruct (Atoi (vars_id r)) as [id|]; [|by intros [= _ <-]].
    rewrite GetUserByID_eq.
    destruct (faulty w); [by intros [= _ <-]|].
    destruct (users (server w) !! id); intros [= _ <-]; simpl;
      by rewrite users_arrives, auto_increment_arrives.
  - unfold getUsersStatsHandler. rewrite GetUsersCount_eq.
    destruct (faulty w); intros [= _ <-]; simpl; [done|].
    by rewrite users_arrives, auto_increment_arrives.
  - unfold healthHandler, Ping, roundtrip.
    destruct (faulty w); intros [= _ <-]; simpl; [done|].
    by rewrite users_arrives, auto_increment_arrives.
Qed.

(** X17. healthHandler always answers 200 with status "healthy", whatever the
    state of the database; only the database field tells: "disconnected"
    when the handle is nil, "healthy" when the ping goes through, and
    "error: " followed by the driver's text when it fails. *)
Theorem healthHandler_always_ok (stamp now : Z) (db : option World) :
  exists database,
    reply (fst (healthHandler stamp now db)) =
      sendJSONResponse now 200 "API is running successfully"
        (HealthData "healthy" "1.0.0" database stamp) /\
    logged (fst (healthHandler stamp now db)) = [] /\
    match db with
    | None => database = "disconnected"
    | Some w => if faulty w then database = "error: " ++ driver_text ErrBadConn
                else database = "healthy"
    end.
Proof.
  unfold healthHandler, Ping, roundtrip. destruct db as [w|].
  - destruct (faulty w); simpl; by eexists.
  - by eexists.
Qed.

(** * Configuration and start-up *)

(** X18. Where a setting comes from: a variable of the environment wins
    over config.env, config.env over the built-in default, and an empty
    value counts as missing for the default but, when it is in the
    environment, still hides the value of config.env.  With a non-empty
    default the setting is never empty. *)
Theorem getEnv_precedence (file : option (gmap string string))
    (env : gmap string string) (key fallback : string) :
  getEnv (godotenv_Load file env).2 key fallback =
    match env !! key with
    | Some v => if bool_decide (v = "") then fallback else v
    | None =>
        match file with
        | Some vars =>
            match vars !! key with
            | Some v => if bool_decide (v = "") then fallback else v
            | None => fallback
            end
        | None => fallback
        end
    end /\
  (fallback <> "" -> getEnv (godotenv_Load file env).2 key fallback <> "").
Proof.
  split.
  - unfold getEnv, Getenv, godotenv_Load. destruct file as [vars|]; simpl.
    + destruct (env !! key) as [v|] eqn:Henv.
      * rewrite (lookup_union_Some_l _ _ _ _ Henv). simpl.
        by repeat case_bool_decide.
      * rewrite (lookup_union_r _ _ _ Henv).
        destruct (vars !! key) as [v|]; simpl; by repeat case_bool_decide.
    + destruct (env !! key) as [v|]; simpl; by repeat case_bool_decide.
  - intros Hfallback. unfold getEnv. by case_bool_decide.
Qed.

Lemma Ping_eq (w : World) :
  Ping w = if faulty w then (inl ErrBadConn, next w (server w))
           else (inr tt, next w (arrives w)).
Proof. unfold Ping, roundtrip. by destruct (faulty w). Qed.

Lemma createTables_eq (d : Site) :
  createTables d =
    if faulty (world d)
    then (inl ErrBadConn,
          mkSite (users_table d) (next (world d) (server (world d))))
    else (inr tt,
          mkSite true
            (next (world d)
               (if users_table d then arrives (world d)
                else mkServer ∅ 1 (clock (arrives (world d)))))).
Proof.
  unfold createTables. rewrite Exec_eq. by destruct (faulty (world d)).
Qed.

Lemma calm_2 (w : World) :
  calm 2 (pending w) = true <->
  faulty w = false /\ faulty (next w (arrives w)) = false.
Proof.
  unfold faulty. simpl.
  destruct (pending w) as [|[dt|] [|[dt'|] rest]]; simpl;
    split; try done; by intros [? ?].
Qed.

(** X19. InitDB returns nil exactly when the data source name is accepted
    and the ping and the CREATE TABLE go through.  Then [DB] is an open
    handle limited to 25 open and 10 idle connections, the users table
    exists, and its rows and counter are those it had, or none and 1 when
    the table has just been created. *)
Theorem InitDB_success (file : option (gmap string string)) (p p' : Process)
    (logs : list log_event) (err : option init_error) :
  InitDB file p = ((logs, err), p') ->
  (err = None <->
   dsn_ok (data_source_name (godotenv_Load file (environ p)).2) = true /\
   calm 2 (pending (world (site p))) = true) /\
  (err = None ->
   DB p' = Some (mkHandle (data_source_name (godotenv_Load file (environ p)).2)
                   25 10 false) /\
   users_table (site p') = true /\
   if users_table (site p)
   then users (server (world (site p'))) = users (server (world (site p))) /\
        auto_increment (server (world (site p')))
        = auto_increment (server (world (site p)))
   else users (server (world (site p'))) = ∅ /\
        auto_increment (server (world (site p'))) = 1).
Proof.
  unfold InitDB. rewrite calm_2.
  destruct (godotenv_Load file (environ p)) as [loaded env]. simpl.
  destruct (dsn_ok (data_source_name env)); simpl.
  2:{ intros [= _ <- _]. split; [|done]. split; [done|]. by intros [? _]. }
  rewrite Ping_eq. destruct (faulty (world (site p))) eqn:Hping.
  { intros [= _ <- _]. split; [|done]. split; [done|]. by intros [_ [? _]]. }
  rewrite createTables_eq. simpl.
  destruct (faulty (next _ _)) eqn:Hcreate.
  { intros [= _ <- _]. split; [|done]. split; [done|]. by intros [_ [_ ?]]. }
  intros [= _ <- <-]. split; [done|]. intros _. simpl.
  do 2 (split; [done|]).
  destruct (users_table (site p)); simpl; [|done].
  rewrite users_arrives, auto_increment_arrives. simpl.
  by rewrite users_arrives, auto_increment_arrives.
Qed.


Lemma godotenv_Load_twice (file : option (gmap string string))
    (env : gmap string string) :
  (godotenv_Load file (godotenv_Load file env).2).2 = (godotenv_Load file env).2.
Proof.
  destruct file as [vars|]; simpl; [|done].
  apply map_eq. intros key. rewrite !lookup_union.
  by destruct (env !! key), (vars !! key).
Qed.

(** What InitDB does when nothing stands in its way. *)
Lemma InitDB_calm (file : option (gmap string string)) (p : Process) :
  dsn_ok (data_source_name (godotenv_Load file (environ p)).2) = true ->
  calm 2 (pending (world (site p))) = true ->
  exists logs h,
    InitDB file p =
      ((logs, None),
       mkProcess (godotenv_Load file (environ p)).2 (Some h)
         (mkSite true
            (mkWorld
               (if users_table (site p)
                then arrives (next (world (site p)) (arrives (world (site p))))
                else mkServer ∅ 1
                       (clock (arrives (next (world (site p))
                                          (arrives (world (site p)))))))
               (drop 2 (pending (world (site p))))))).
Proof.
  intros Hdsn Hcalm. apply calm_2 in Hcalm as [Hping Hcreate].
  unfold InitDB. destruct (godotenv_Load file (environ p)) as [loaded env].
  simpl in *. rewrite Hdsn. simpl. rewrite Ping_eq, Hping.
  rewrite createTables_eq. simpl. rewrite Hcreate.
  eexists _, _. do 3 f_equal. unfold next. simpl. f_equal.
  by destruct (pending (world (site p))) as [|? [|? ?]].
Qed.

Lemma SeedUsers_calm (w : World) :
  users (server w) = ∅ -> ids_allocated (server w) -> seeds_distinct ->
  calm 10 (pending w) = true ->
  exists w', SeedUsers w = (inr tt, w').
Proof.
  intros Hempty Hids Hdistinct Hcalm.
  rewrite SeedUsers_eq. apply calm_next in Hcalm as [-> Hcalm].
  rewrite Hempty, map_size_empty. simpl (0 <? _). cbv iota.
  apply seed_loop_calm.
  - simpl. by apply keeps_arrives; [apply ids_allocated_advance|].
  - done.
  - by repeat constructor.
  - done.
  - simpl. rewrite users_arrives, Hempty.
    repeat constructor; by intros (i & r & Hi & _).
Qed.

(** X21. Starting on a database that has no users table yet: when the data
    source name is accepted and the storage does not fail, the server comes
    up without a warning, the table exists and holds exactly the three seed
    users under the ids 1, 2 and 3. *)
Theorem startup_fresh_database (file : option (gmap string string))
    (p : Process) :
  users_table (site p) = false ->
  dsn_ok (data_source_name (godotenv_Load file (environ p)).2) = true ->
  seeds_distinct ->
  calm 12 (pending (world (site p))) = true ->
  exists logs p' t1 t2 t3,
    startup file p = ((logs, Serving None), p') /\
    users_table (site p') = true /\
    users (server (world (site p'))) = seeded_table 1 t1 t2 t3.
Proof.
  intros Htable Hdsn Hdistinct Hcalm. unfold startup.
  destruct (godotenv_Load file (environ p)) as [loaded env] eqn:Hload.
  assert (Htwice : (godotenv_Load file env).2 = env).
  { replace env with (godotenv_Load file (environ p)).2 by by rewrite Hload.
    apply godotenv_Load_twice. }
  destruct (InitDB_calm file (mkProcess env (DB p) (site p)))
    as (logs & h & ->).
  { simpl in *. by rewrite Htwice. }
  { exact (calm_le 2 12 _ ltac:(lia) Hcalm). }
  simpl. rewrite Htable.
  set (w2 := mkWorld _ _).
  destruct (SeedUsers_calm w2) as [w3 Hseed]; try done.
  { unfold w2. simpl. by apply (calm_drop 2 10). }
  rewrite Hseed.
  destruct (SeedUsers_ok_inv w2 w3 eq_refl Hseed) as (t1 & t2 & t3 & Husers).
  by eexists _, _, t1, t2, t3.
Qed.



End Repository.

(** * The dashboard's email check (script.js) *)

Lemma matches_then_inv (r1 r2 : regex) (s : list N) :
  matches (Then r1 r2) s ->
  exists s1 s2, s = (s1 ++ s2)%list /\ matches r1 s1 /\ matches r2 s2.
Proof. inversion 1; subst. eauto. Qed.

Lemma matches_or_inv (r1 r2 : regex) (s : list N) :
  matches (Or r1 r2) s -> matches r1 s \/ matches r2 s.
Proof. inversion 1; subst; eauto. Qed.

Lemma accepts_empty_matches (r : regex) :
  accepts_empty r = true <-> matches r [].
Proof.
  induction r as [| |class|r1 IH1 r2 IH2|r1 IH1 r2 IH2|r IH]; simpl.
  - split; [done|inversion 1].
  - split; [constructor|done].
  - split; [done|inversion 1].
  - rewrite andb_true_iff, IH1, IH2. split.
    + intros [H1 H2]. by apply (matches_then _ _ [] []).
    + intros Hm. apply matches_then_inv in Hm as (s1 & s2 & Heq & H1 & H2).
      symmetry in Heq. by apply app_eq_nil in Heq as [-> ->].
  - rewrite orb_true_iff, IH1, IH2. split.
    + intros [H|H]; by constructor.
    + apply matches_or_inv.
  - split; [constructor|done].
Qed.

(** A non-empty string of [Many r] starts with a non-empty string of [r]. *)
Lemma matches_many_cons (r : regex) (c : N) (s : list N) :
  matches (Many r) (c :: s) ->
  exists s1 s2, s = (s1 ++ s2)%list /\ matches r (c :: s1) /\ matches (Many r) s2.
Proof.
  intros Hm. remember (Many r) as r' eqn:Hr. remember (c :: s) as s' eqn:Hs.
  revert c s Hs.
  induction Hm as [| | | | | |r0 s1 s2 H1 _ H2 IH2]; try done.
  injection Hr as ->. intros c s Hs.
  destruct s1 as [|c1 s1]; simpl in Hs.
  - by apply IH2.
  - injection Hs as -> <-. by exists s1, s2.
Qed.

Lemma after_matches (c : N) (r : regex) (s : list N) :
  matches (after c r) s <-> matches r (c :: s).
Proof.
  revert s.
  induction r as [| |class|r1 IH1 r2 IH2|r1 IH1 r2 IH2|r IH]; intros s; simpl.
  - split; inversion 1.
  - split; inversion 1.
  - destruct (class c) eqn:Hc; split; inversion 1; subst.
    + by constructor.
    + constructor.
    + congruence.
  - split.
    + intros Hm. apply matches_or_inv in Hm as [Hl|Hr].
      * apply matches_then_inv in Hl as (s1 & s2 & -> & H1 & H2).
        apply IH1 in H1. by apply (matches_then _ _ (c :: s1) s2).
      * destruct (accepts_empty r1) eqn:Hempty; [|inversion Hr].
        apply accepts_empty_matches in Hempty. apply IH2 in Hr.
        by apply (matches_then _ _ [] (c :: s)).
    + intros Hm. apply matches_then_inv in Hm as (s1 & s2 & Heq & H1 & H2).
      destruct s1 as [|c1 s1]; simpl in Heq.
      * subst s2. apply matches_or_r.
        apply accepts_empty_matches in H1. rewrite H1. by apply IH2.
      * injection Heq as -> ->. apply matches_or_l.
        constructor; [by apply IH1|done].
  - split; intros Hm; apply matches_or_inv in Hm as [Hm|Hm];
      ((apply matches_or_l; by apply IH1) || (apply matches_or_r; by apply IH2)).
  - split.
    + intros Hm. apply matches_then_inv in Hm as (s1 & s2 & -> & H1 & H2).
      apply IH in H1. by apply (matches_many_more _ (c :: s1) s2).
    + intros Hm. apply matches_many_cons in Hm as (s1 & s2 & -> & H1 & H2).
      constructor; [by apply IH|done].
Qed.

(** The test decides membership. *)
Lemma test_matches (r : regex) (s : list N) :
  test r s = true <-> matches r s.
Proof.
  unfold test. revert r. induction s as [|c s IH]; intros r; simpl.
  - apply accepts_empty_matches.
  - by rewrite IH, after_matches.
Qed.

Lemma matches_many_class (class : N -> bool) (s : list N) :
  matches (Many (OneOf class)) s <-> Forall (fun c => class c = true) s.
Proof.
  split.
  - intros Hm. remember (Many (OneOf class)) as r eqn:Hr.
    induction Hm as [| | | | | |r0 s1 s2 H1 _ H2 IH2]; try done.
    injection Hr as ->. inversion H1; subst. constructor; [done|by apply IH2].
  - induction 1 as [|c s Hc _ IH]; [constructor|].
    apply (matches_many_more _ [c] s); [by constructor|done].
Qed.

Lemma matches_at_least_once_class (class : N -> bool) (s : list N) :
  matches (at_least_once (OneOf class)) s <->
  s <> [] /\ Forall (fun c => class c = true) s.
Proof.
  unfold at_least_once. split.
  - intros Hm. apply matches_then_inv in Hm as (s1 & s2 & -> & H1 & H2).
    inversion H1; subst. apply matches_many_class in H2.
    split; [done|by constructor].
  - intros [Hne Hall]. destruct Hall as [|c s Hc Hall]; [done|].
    apply (matches_then _ _ [c] s); [by constructor|].
    by apply matches_many_class.
Qed.

Lemma matches_code_unit (k : N) (s : list N) :
  matches (OneOf (N.eqb k)) s <-> s = [k].
Proof.
  split.
  - inversion 1 as [|? c Hc| | | | |]; subst. by apply N.eqb_eq in Hc as ->.
  - intros ->. constructor. apply N.eqb_refl.
Qed.

(** The strings of the pattern: three non-empty runs free of white space
    and of [@], joined by one [@] and one dot. *)
Lemma emailRegex_matches (s : list N) :
  matches emailRegex s <->
  exists name domain tld,
    s = (name ++ [64%N] ++ domain ++ [46%N] ++ tld)%list /\
    (name <> [] /\ Forall (fun c => not_space_or_at c = true) name) /\
    (domain <> [] /\ Forall (fun c => not_space_or_at c = true) domain) /\
    (tld <> [] /\ Forall (fun c => not_space_or_at c = true) tld).
Proof.
  unfold emailRegex. split.
  - intros Hm.
    apply matches_then_inv in Hm as (name & s1 & -> & Hname & Hm).
    apply matches_then_inv in Hm as (a & s2 & -> & Hat & Hm).
    apply matches_then_inv in Hm as (domain & s3 & -> & Hdomain & Hm).
    apply matches_then_inv in Hm as (d & tld & -> & Hdot & Htld).
    apply matches_code_unit in Hat as ->, Hdot as ->.
    exists name, domain, tld. split; [done|].
    by rewrite <- !matches_at_least_once_class.
  - intros (name & domain & tld & -> & Hname & Hdomain & Htld).
    rewrite <- !matches_at_least_once_class in *.
    repeat (constructor; try done); by apply matches_code_unit.
Qed.

(** X24. isValidEmail accepts exactly the strings made of three non-empty
    runs without white space and without "@", the first two joined by one
    "@" and the last two by one dot. *)
Theorem isValidEmail_shape (email : list N) :
  isValidEmail email = true <->
  exists name domain tld,
    email = (name ++ [64%N] ++ domain ++ [46%N] ++ tld)%list /\
    (name <> [] /\ Forall (fun c => not_space_or_at c = true) name) /\
    (domain <> [] /\ Forall (fun c => not_space_or_at c = true) domain) /\
    (tld <> [] /\ Forall (fun c => not_space_or_at c = true) tld).
Proof.
  unfold isValidEmail. by rewrite test_matches, emailRegex_matches.
Qed.

Lemma no_at_in_class (l : list N) :
  Forall (fun c => not_space_or_at c = true) l ->
  filter (fun c => c = 64%N) l = [] /\
  Forall (fun c => white_space c = false) l.
Proof.
  induction 1 as [|c l Hc _ [IHat IHspace]]; [done|].
  unfold not_space_or_at in Hc.
  apply negb_true_iff, orb_false_iff in Hc as [Hspace Hat].
  apply N.eqb_neq in Hat. split.
  - by rewrite filter_cons_False.
  - by constructor.
Qed.

(** X25. An email that isValidEmail accepts contains exactly one "@", no
    white space at all, a dot somewhere after the "@" with something between
    them, and at least five characters. *)
Theorem isValidEmail_accepted (email : list N) :
  isValidEmail email = true ->
  length (filter (fun c => c = 64%N) email) = 1%nat /\
  Forall (fun c => white_space c = false) email /\
  (exists before rest,
     email = (before ++ 64%N :: rest)%list /\
     exists between tld, rest = (between ++ 46%N :: tld)%list /\
                         between <> [] /\ tld <> []) /\
  (5 <= length email)%nat.
Proof.
  unfold isValidEmail. rewrite test_matches, emailRegex_matches.
  intros (name & domain & tld & -> & [Hname Hname_class]
          & [Hdomain Hdomain_class] & [Htld Htld_class]).
  destruct (no_at_in_class _ Hname_class) as [Hat1 Hsp1].
  destruct (no_at_in_class _ Hdomain_class) as [Hat2 Hsp2].
  destruct (no_at_in_class _ Htld_class) as [Hat3 Hsp3].
  split; [|split; [|split]].
  - rewrite !filter_app, Hat1, Hat2, Hat3. done.
  - rewrite !Forall_app. repeat split; try done; by repeat constructor.
  - exists name, (domain ++ [46%N] ++ tld)%list. split; [done|].
    by exists domain, tld.
  - rewrite !length_app. simpl.
    destruct name, domain, tld; simpl; try done; lia.
Qed.

(** * Runs of the model

    The statements above are parametric in the collation; the runs below fix
    [ascii_ci]. *)

(** The scenario of the specification: create Ann, create Bob with Ann's
    email, update Ann, delete her, look her up. *)
Example scenario :
  let '(r1, w1) := CreateUser ascii_ci "Ann" "ann@x.com" (ticking 100) in
  let '(r2, w2) := CreateUser ascii_ci "Bob" "ann@x.com" w1 in
  let '(r3, w3) := UpdateUser ascii_ci 1 "Ann K." "ann2@x.com" w2 in
  let '(r4, w4) := DeleteUser 1 w3 in
  let '(r5, w5) := GetUserByID 1 w4 in
  r1 = inr (mkUser 1 "Ann" "ann@x.com" 105 105) /\
  r2 = inl (ConflictError "ann@x.com") /\
  r3 = inr (mkUser 1 "Ann K." "ann2@x.com" 105 108) /\
  r4 = inr tt /\
  r5 = inl (NotFoundError 1).
Proof. vm_compute. done. Qed.

Example ann_world_is_reached :
  CreateUser ascii_ci "Ann" "ann@x.com" (quiet 0)
  = (inr (mkUser 1 "Ann" "ann@x.com" 0 0), ann_world).
Proof. vm_compute. done. Qed.

(** ** C1 at a concrete run *)

Lemma email_uniqueness_invariant_witness :
  perform_all ascii_ci sample_requests (ticking 100)
  = (inr tt, snd (perform_all ascii_ci sample_requests (ticking 100))) /\
  emails_unique ascii_ci (users (server (ticking 100))) /\
  emails_distinct (users (server (ticking 100))) /\
  emails_unique ascii_ci
    (users (server (snd (perform_all ascii_ci sample_requests (ticking 100))))) /\
  emails_distinct
    (users (server (snd (perform_all ascii_ci sample_requests (ticking 100))))).
Proof.
  assert (Hrun : perform_all ascii_ci sample_requests (ticking 100)
                 = (inr tt, snd (perform_all ascii_ci sample_requests
                                   (ticking 100))))
    by (vm_compute; reflexivity).
  destruct (email_uniqueness_invariant ascii_ci sample_requests _ _ Hrun)
    as [Hunique Hdistinct].
  assert (Hu0 : emails_unique ascii_ci (users (server (ticking 100))))
    by compute_done.
  assert (Hd0 : emails_distinct (users (server (ticking 100))))
    by compute_done.
  exact (conj Hrun (conj Hu0 (conj Hd0
           (conj (Hunique Hu0) (Hdistinct Hd0))))).
Defined.

(** ** C2: a name that does not fit *)

(** createUser with a non-empty 256-character name and a non-empty email
    no user has does not succeed: the INSERT is rejected. *)
Lemma CreateUser_long_name_rejected :
  long_name <> "" /\ "ann@x.com" <> "" /\
  ~ email_in_use ascii_ci "ann@x.com" (users (server (quiet 0))) /\
  CreateUser ascii_ci long_name "ann@x.com" (quiet 0)
  = (inl (QueryError "failed to create user" ErrDataTooLong), quiet 0) /\
  ~ (exists u w', CreateUser ascii_ci long_name "ann@x.com" (quiet 0)
                  = (inr u, w')).
Proof.
  assert (Hrun : CreateUser ascii_ci long_name "ann@x.com" (quiet 0)
                 = (inl (QueryError "failed to create user" ErrDataTooLong),
                    quiet 0))
    by (vm_compute; reflexivity).
  split; [done|]. split; [done|]. split; [compute_done|].
  split; [exact Hrun|].
  intros (u & w' & Hok). rewrite Hrun in Hok. discriminate.
Qed.

Lemma CreateUser_unused_email_witness :
  ids_allocated (server (ticking 100)) /\
  calm 3 (pending (ticking 100)) = true /\
  varchar255 "Ann" = true /\ varchar255 "ann@x.com" = true /\
  ~ email_in_use ascii_ci "ann@x.com" (users (server (ticking 100))) /\
  exists u w',
    CreateUser ascii_ci "Ann" "ann@x.com" (ticking 100) = (inr u, w') /\
    Email u = "ann@x.com" /\ Name u = "Ann" /\
    0 < ID u /\ users (server (ticking 100)) !! ID u = None /\
    CreatedAt u = UpdatedAt u /\
    users (server w') !! ID u =
      Some (mkRow "Ann" "ann@x.com" (CreatedAt u) (UpdatedAt u)).
Proof.
  assert (H1 : ids_allocated (server (ticking 100))) by compute_done.
  assert (H2 : calm 3 (pending (ticking 100)) = true) by reflexivity.
  assert (H3 : varchar255 "Ann" = true) by reflexivity.
  assert (H4 : varchar255 "ann@x.com" = true) by reflexivity.
  assert (H5 : ~ email_in_use ascii_ci "ann@x.com"
                   (users (server (ticking 100)))) by compute_done.
  exact (conj H1 (conj H2 (conj H3 (conj H4 (conj H5
           (CreateUser_unused_email ascii_ci "Ann" "ann@x.com" (ticking 100)
              H1 H2 H3 H4 H5)))))).
Defined.

(** ** C3 at a concrete run *)

Lemma CreateUser_same_email_again_witness :
  CreateUser ascii_ci "Ann" "ann@x.com" (quiet 0)
  = (inr (mkUser 1 "Ann" "ann@x.com" 0 0), ann_world) /\
  calm 1 (pending ann_world) = true /\
  exists w2, CreateUser ascii_ci "Bob" "ann@x.com" ann_world
             = (inl (ConflictError "ann@x.com"), w2).
Proof.
  assert (H1 : CreateUser ascii_ci "Ann" "ann@x.com" (quiet 0)
               = (inr (mkUser 1 "Ann" "ann@x.com" 0 0), ann_world))
    by (vm_compute; reflexivity).
  assert (H2 : calm 1 (pending ann_world) = true) by reflexivity.
  exact (conj H1 (conj H2
           (CreateUser_same_email_again ascii_ci "Ann" "Bob" "ann@x.com"
              (quiet 0) ann_world _ H1 H2))).
Defined.

(** ** C4: an id nobody has *)

(** Ann's email is in use by a user whose id is not 2, yet updateUser on
    id 2 with that email returns NotFoundError, not ConflictError. *)
Lemma UpdateUser_missing_id_used_email :
  email_in_use_by_other ascii_ci "ann@x.com" 2 (users (server ann_world)) /\
  UpdateUser ascii_ci 2 "Bob" "ann@x.com" ann_world
  = (inl (NotFoundError 2), ann_world) /\
  ~ (exists w', UpdateUser ascii_ci 2 "Bob" "ann@x.com" ann_world
                = (inl (ConflictError "ann@x.com"), w')).
Proof.
  assert (Hrun : UpdateUser ascii_ci 2 "Bob" "ann@x.com" ann_world
                 = (inl (NotFoundError 2), ann_world))
    by (vm_compute; reflexivity).
  split; [compute_done|]. split; [exact Hrun|].
  intros (w' & Hconflict). rewrite Hrun in Hconflict. discriminate.
Qed.

Lemma UpdateUser_conflict_iff_witness :
  users (server ann_world) !! 1 = Some (mkRow "Ann" "ann@x.com" 0 0) /\
  calm 2 (pending ann_world) = true /\
  ((exists w', UpdateUser ascii_ci 1 "Ann K." "ann@x.com" ann_world
               = (inl (ConflictError "ann@x.com"), w')) <->
   email_in_use_by_other ascii_ci "ann@x.com" 1 (users (server ann_world))) /\
  exists u w', UpdateUser ascii_ci 1 "Ann K." "ann@x.com" ann_world = (inr u, w')
               /\ Email u = "ann@x.com" /\ Name u = "Ann K.".
Proof.
  assert (H1 : users (server ann_world) !! 1
               = Some (mkRow "Ann" "ann@x.com" 0 0)) by reflexivity.
  assert (H2 : calm 2 (pending ann_world) = true) by reflexivity.
  assert (H3 : emails_unique ascii_ci (users (server ann_world)))
    by compute_done.
  destruct (UpdateUser_conflict_iff ascii_ci 1 "Ann K." "ann@x.com" ann_world
              _ H1 H2) as [Hiff Hown].
  destruct (Hown H3 eq_refl) as [_ Hok].
  exact (conj H1 (conj H2 (conj Hiff (Hok eq_refl eq_refl eq_refl)))).
Defined.

(** ** C5 at a concrete run *)

Lemma UpdateUser_unknown_id_witness :
  users (server ann_world) !! 7 = None /\
  calm 1 (pending ann_world) = true /\
  (exists w', UpdateUser ascii_ci 7 "Bob" "ann@x.com" ann_world
              = (inl (NotFoundError 7), w')) /\
  (exists w', UpdateUser ascii_ci 7 long_name "" ann_world
              = (inl (NotFoundError 7), w')).
Proof.
  assert (H1 : users (server ann_world) !! 7 = None) by reflexivity.
  assert (H2 : calm 1 (pending ann_world) = true) by reflexivity.
  exact (conj H1 (conj H2 (conj
           (UpdateUser_unknown_id ascii_ci 7 "Bob" "ann@x.com" ann_world H1 H2)
           (UpdateUser_unknown_id ascii_ci 7 long_name "" ann_world H1 H2)))).
Defined.

(** ** C6 at a concrete run *)

Lemma DeleteUser_then_GetUserByID_witness :
  DeleteUser 1 ann_world = (inr tt, mkWorld (mkServer ∅ 2 0) []) /\
  calm 1 (pending (mkWorld (mkServer ∅ 2 0) [])) = true /\
  is_Some (users (server ann_world) !! 1) /\
  users (server (mkWorld (mkServer ∅ 2 0) []))
  = delete 1 (users (server ann_world)) /\
  exists w2, GetUserByID 1 (mkWorld (mkServer ∅ 2 0) [])
             = (inl (NotFoundError 1), w2).
Proof.
  assert (H1 : DeleteUser 1 ann_world = (inr tt, mkWorld (mkServer ∅ 2 0) []))
    by (vm_compute; reflexivity).
  assert (H2 : calm 1 (pending (mkWorld (mkServer ∅ 2 0) [])) = true)
    by reflexivity.
  exact (conj H1 (conj H2
           (DeleteUser_then_GetUserByID 1 ann_world _ H1 H2))).
Defined.

(** ** C8: an update within the same second *)

(** Ann was created at time 0; renaming her before the server's clock moves
    succeeds and leaves updated_at at 0, which is not greater than 0. *)
Lemma UpdateUser_same_second :
  users (server ann_world) !! 1 = Some (mkRow "Ann" "ann@x.com" 0 0) /\
  "Ann K." <> "Ann" /\
  UpdateUser ascii_ci 1 "Ann K." "ann@x.com" ann_world
  = (inr (mkUser 1 "Ann K." "ann@x.com" 0 0),
     mkWorld (mkServer {[ 1 := mkRow "Ann K." "ann@x.com" 0 0 ]} 2 0) []) /\
  ~ (r_updated_at (mkRow "Ann" "ann@x.com" 0 0)
     < UpdatedAt (mkUser 1 "Ann K." "ann@x.com" 0 0)).
Proof.
  split; [reflexivity|]. split; [done|].
  split; [vm_compute; reflexivity|]. simpl. lia.
Qed.

Lemma UpdateUser_name_only_witness :
  timestamps_ordered (server ann_world) /\
  users (server ann_world) !! 1 = Some (mkRow "Ann" "ann@x.com" 0 0) /\
  UpdateUser ascii_ci 1 "Ann K." "ann@x.com" (mkWorld (server ann_world) [Tick 3])
  = (inr (mkUser 1 "Ann K." "ann@x.com" 0 3),
     mkWorld (mkServer {[ 1 := mkRow "Ann K." "ann@x.com" 0 3 ]} 2 3) []) /\
  r_updated_at (mkRow "Ann" "ann@x.com" 0 0)
  <= UpdatedAt (mkUser 1 "Ann K." "ann@x.com" 0 3).
Proof.
  assert (H1 : timestamps_ordered (server ann_world)) by compute_done.
  assert (H2 : users (server ann_world) !! 1
               = Some (mkRow "Ann" "ann@x.com" 0 0)) by reflexivity.
  assert (H3 : UpdateUser ascii_ci 1 "Ann K." "ann@x.com"
                 (mkWorld (server ann_world) [Tick 3])
               = (inr (mkUser 1 "Ann K." "ann@x.com" 0 3),
                  mkWorld (mkServer {[ 1 := mkRow "Ann K." "ann@x.com" 0 3 ]}
                             2 3) []))
    by (vm_compute; reflexivity).
  destruct (UpdateUser_name_only ascii_ci 1 "Ann K."
              (mkWorld (server ann_world) [Tick 3]) _ _ _ H1 H2 H3)
    as (_ & _ & _ & _ & Hle & _).
  exact (conj H1 (conj H2 (conj H3 Hle))).
Defined.

(** ** C9 at a concrete run *)

Lemma GetUsersCount_GetAllUsers_witness :
  users (server ann_world) = users (server ann_world) /\
  GetUsersCount ann_world = (inr 1, ann_world) /\
  GetAllUsers ann_world = (inr [mkUser 1 "Ann" "ann@x.com" 0 0], ann_world) /\
  1 = Z.of_nat (length [mkUser 1 "Ann" "ann@x.com" 0 0]).
Proof.
  assert (H1 : GetUsersCount ann_world = (inr 1, ann_world))
    by (vm_compute; reflexivity).
  assert (H2 : GetAllUsers ann_world
               = (inr [mkUser 1 "Ann" "ann@x.com" 0 0], ann_world))
    by (vm_compute; reflexivity).
  exact (conj eq_refl (conj H1 (conj H2
           (GetUsersCount_GetAllUsers ann_world ann_world _ _ _ _
              eq_refl H1 H2)))).
Defined.

(** ** C7 and C10 at concrete runs *)

Lemma SeedUsers_spec_witness :
  users (server (ticking 100)) = ∅ /\
  ids_allocated (server (ticking 100)) /\
  seeds_distinct ascii_ci /\
  calm 10 (pending (ticking 100)) = true /\
  exists w' t1 t2 t3,
    SeedUsers ascii_ci (ticking 100) = (inr tt, w') /\
    users (server w') = seeded_table 1 t1 t2 t3 /\
    size (users (server w')) = 3%nat.
Proof.
  assert (H1 : users (server (ticking 100)) = ∅) by reflexivity.
  assert (H2 : ids_allocated (server (ticking 100))) by compute_done.
  assert (H3 : seeds_distinct ascii_ci) by compute_done.
  assert (H4 : calm 10 (pending (ticking 100)) = true) by reflexivity.
  destruct (SeedUsers_spec ascii_ci) as (_ & Hempty & _).
  exact (conj H1 (conj H2 (conj H3 (conj H4
           (Hempty (ticking 100) H1 H2 H3 H4))))).
Defined.

Lemma named_errors_leave_table_witness :
  CreateUser ascii_ci "Bob" "ANN@X.COM" (mkWorld (server ann_world) [Tick 4])
  = (inl (ConflictError "ANN@X.COM"),
     mkWorld (advance 4 (server ann_world)) []) /\
  users (advance 4 (server ann_world)) = users (server ann_world) /\
  auto_increment (advance 4 (server ann_world))
  = auto_increment (server ann_world).
Proof.
  assert (H1 : CreateUser ascii_ci "Bob" "ANN@X.COM"
                 (mkWorld (server ann_world) [Tick 4])
               = (inl (ConflictError "ANN@X.COM"),
                  mkWorld (advance 4 (server ann_world)) []))
    by (vm_compute; reflexivity).
  destruct (named_errors_leave_table ascii_ci) as (Hcreate & _).
  exact (conj H1 (Hcreate _ _ _ _ _ H1)).
Defined.

Example SeedUsers_twice :
  let '(r1, w1) := SeedUsers ascii_ci (quiet 0) in
  let '(r2, w2) := SeedUsers ascii_ci w1 in
  let '(r3, w3) := GetAllUsers w2 in
  r1 = inr tt /\ users (server w1) = seeded_table 1 0 0 0 /\
  r2 = inr tt /\ w2 = w1 /\
  length (match r3 with inr l => l | inl _ => [] end) = 3%nat.
Proof. vm_compute. done. Qed.

(** A fault at the INSERT of the second entry: the error names Jane Smith and
    only John Doe is in the table. *)
Example SeedUsers_interrupted :
  SeedUsers ascii_ci
    (mkWorld (empty_server 0) [Tick 0; Tick 0; Tick 0; Tick 0; Tick 0; Fault])
  = (inl (SeedError "Jane Smith"
            (QueryError "failed to create user" ErrBadConn)),
     mkWorld (mkServer {[ 1 := mkRow "John Doe" "john@example.com" 0 0 ]} 2 0)
             []).
Proof. vm_compute. done. Qed.

Example named_errors_are_reached :
  CreateUser ascii_ci "Bob" "ANN@X.COM" ann_world
  = (inl (ConflictError "ANN@X.COM"), ann_world) /\
  DeleteUser 5 ann_world = (inl (NotFoundError 5), ann_world).
Proof. vm_compute. done. Qed.

(** ** Further properties at concrete runs *)


Lemma GetUserByID_after_CreateUser_witness :
  CreateUser ascii_ci "Ann" "ann@x.com" (quiet 0)
  = (inr (mkUser 1 "Ann" "ann@x.com" 0 0), ann_world) /\
  calm 1 (pending ann_world) = true /\
  exists w2, GetUserByID (ID (mkUser 1 "Ann" "ann@x.com" 0 0)) ann_world
             = (inr (mkUser 1 "Ann" "ann@x.com" 0 0), w2).
Proof.
  assert (H1 : CreateUser ascii_ci "Ann" "ann@x.com" (quiet 0)
               = (inr (mkUser 1 "Ann" "ann@x.com" 0 0), ann_world))
    by (vm_compute; reflexivity).
  assert (H2 : calm 1 (pending ann_world) = true) by reflexivity.
  exact (conj H1 (conj H2
           (GetUserByID_after_CreateUser ascii_ci _ _ _ _ _ H1 H2))).
Defined.


Lemma DeleteUser_unknown_id_witness :
  users (server ann_world) !! 7 = None /\
  calm 1 (pending ann_world) = true /\
  exists w', DeleteUser 7 ann_world = (inl (NotFoundError 7), w') /\
             users (server w') = users (server ann_world).
Proof.
  assert (H1 : users (server ann_world) !! 7 = None) by reflexivity.
  assert (H2 : calm 1 (pending ann_world) = true) by reflexivity.
  exact (conj H1 (conj H2 (DeleteUser_unknown_id 7 ann_world H1 H2))).
Defined.

(** Ann is deleted, the table is seeded anew and a deletion fails; Bob,
    created afterwards, does not get id 1. *)
Lemma ids_never_reused_witness :
  ids_allocated (server ann_world) /\
  CreateUser ascii_ci "Bob" "bob@x.com"
    (run_calls ascii_ci [CallDeleteUser 1; CallSeedUsers; CallDeleteUser 7]
       ann_world)
  = (inr (mkUser 5 "Bob" "bob@x.com" 0 0),
     snd (CreateUser ascii_ci "Bob" "bob@x.com"
            (run_calls ascii_ci
               [CallDeleteUser 1; CallSeedUsers; CallDeleteUser 7]
               ann_world))) /\
  is_Some (users (server ann_world) !! 1) /\
  1 < ID (mkUser 5 "Bob" "bob@x.com" 0 0).
Proof.
  assert (H1 : ids_allocated (server ann_world)) by compute_done.
  assert (H2 : CreateUser ascii_ci "Bob" "bob@x.com"
                 (run_calls ascii_ci
                    [CallDeleteUser 1; CallSeedUsers; CallDeleteUser 7]
                    ann_world)
               = (inr (mkUser 5 "Bob" "bob@x.com" 0 0),
                  snd (CreateUser ascii_ci "Bob" "bob@x.com"
                         (run_calls ascii_ci
                            [CallDeleteUser 1; CallSeedUsers; CallDeleteUser 7]
                            ann_world))))
    by (vm_compute; reflexivity).
  assert (H3 : is_Some (users (server ann_world) !! 1)) by (by eexists).
  exact (conj H1 (conj H2 (conj H3
           (ids_never_reused ascii_ci _ _ _ _ _ _ H1 H2 1 H3)))).
Defined.

Lemma duplicate_entry_never_surfaces_witness :
  ids_allocated (server ann_world) /\
  CreateUser ascii_ci "Bob" "ANN@X.COM" ann_world
  = (inl (ConflictError "ANN@X.COM"), ann_world) /\
  ConflictError "ANN@X.COM"
  <> QueryError "failed to create user" ErrDuplicateEntry.
Proof.
  assert (H1 : ids_allocated (server ann_world)) by compute_done.
  assert (H2 : CreateUser ascii_ci "Bob" "ANN@X.COM" ann_world
               = (inl (ConflictError "ANN@X.COM"), ann_world))
    by (vm_compute; reflexivity).
  destruct (duplicate_entry_never_surfaces ascii_ci) as (Hcreate & _).
  exact (conj H1 (conj H2 (Hcreate _ _ _ _ _ H1 H2 _))).
Defined.

Lemma CreateUser_collation_conflict_witness :
  CreateUser ascii_ci "Ann" "ann@x.com" (quiet 0)
  = (inr (mkUser 1 "Ann" "ann@x.com" 0 0), ann_world) /\
  same_email ascii_ci "ann@x.com" "Ann@X.com" /\
  calm 1 (pending ann_world) = true /\
  exists w2, CreateUser ascii_ci "Bob" "Ann@X.com" ann_world
             = (inl (ConflictError "Ann@X.com"), w2).
Proof.
  assert (H1 : CreateUser ascii_ci "Ann" "ann@x.com" (quiet 0)
               = (inr (mkUser 1 "Ann" "ann@x.com" 0 0), ann_world))
    by (vm_compute; reflexivity).
  assert (H2 : same_email ascii_ci "ann@x.com" "Ann@X.com") by reflexivity.
  assert (H3 : calm 1 (pending ann_world) = true) by reflexivity.
  exact (conj H1 (conj H2 (conj H3
           (CreateUser_collation_conflict ascii_ci "Ann" "Bob" _ _ _ _ _
              H1 H2 H3)))).
Defined.

Lemma writes_and_count_witness :
  DeleteUser 1 ann_world = (inr tt, mkWorld (mkServer ∅ 2 0) []) /\
  S (size (users (server (mkWorld (mkServer ∅ 2 0) []))))
  = size (users (server ann_world)).
Proof.
  assert (H1 : DeleteUser 1 ann_world = (inr tt, mkWorld (mkServer ∅ 2 0) []))
    by (vm_compute; reflexivity).
  destruct (writes_and_count ascii_ci) as (_ & _ & Hdelete).
  exact (conj H1 (Hdelete _ _ _ H1)).
Defined.

Lemma listed_users_timestamps_witness :
  timestamps_ordered (server (bumpy 100)) /\
  GetAllUsers (run_calls ascii_ci sample_calls (bumpy 100))
  = (inr [mkUser 1 "Ann K." "ann2@x.com" 105 114],
     snd (GetAllUsers (run_calls ascii_ci sample_calls (bumpy 100)))) /\
  Forall (fun u => CreatedAt u <= UpdatedAt u)
    [mkUser 1 "Ann K." "ann2@x.com" 105 114].
Proof.
  assert (H1 : timestamps_ordered (server (bumpy 100))) by compute_done.
  assert (H2 : GetAllUsers (run_calls ascii_ci sample_calls (bumpy 100))
               = (inr [mkUser 1 "Ann K." "ann2@x.com" 105 114],
                  snd (GetAllUsers
                         (run_calls ascii_ci sample_calls (bumpy 100)))))
    by (vm_compute; reflexivity).
  exact (conj H1 (conj H2
           (listed_users_timestamps ascii_ci _ _ _ _ H1 H2))).
Defined.

(** Seeding, then an attempt to take John's email in capitals: the listing
    shows john@example.com once. *)
Lemma listed_emails_unique_witness :
  emails_unique ascii_ci (users (server (quiet 0))) /\
  GetAllUsers
    (run_calls ascii_ci
       [CallSeedUsers; CallCreateUser "Johnny" "JOHN@example.com"] (quiet 0))
  = (inr [mkUser 1 "John Doe" "john@example.com" 0 0;
          mkUser 2 "Jane Smith" "jane@example.com" 0 0;
          mkUser 3 "Alice Johnson" "alice@example.com" 0 0],
     snd (GetAllUsers
            (run_calls ascii_ci
               [CallSeedUsers; CallCreateUser "Johnny" "JOHN@example.com"]
               (quiet 0)))) /\
  same_email ascii_ci "john@example.com" "john@example.com" /\
  mkUser 1 "John Doe" "john@example.com" 0 0
  = mkUser 1 "John Doe" "john@example.com" 0 0.
Proof.
  assert (H1 : emails_unique ascii_ci (users (server (quiet 0))))
    by compute_done.
  assert (H2 : GetAllUsers
                 (run_calls ascii_ci
                    [CallSeedUsers; CallCreateUser "Johnny" "JOHN@example.com"]
                    (quiet 0))
               = (inr [mkUser 1 "John Doe" "john@example.com" 0 0;
                       mkUser 2 "Jane Smith" "jane@example.com" 0 0;
                       mkUser 3 "Alice Johnson" "alice@example.com" 0 0],
                  snd (GetAllUsers
                         (run_calls ascii_ci
                            [CallSeedUsers;
                             CallCreateUser "Johnny" "JOHN@example.com"]
                            (quiet 0)))))
    by (vm_compute; reflexivity).
  assert (H3 : same_email ascii_ci "john@example.com" "john@example.com")
    by reflexivity.
  exact (conj H1 (conj H2 (conj H3
           (listed_emails_unique ascii_ci _ _ _ _ H1 H2 _ _
              (list_elem_of_here _ _) (list_elem_of_here _ _) H3)))).
Defined.

(** ** The handlers at concrete requests *)

Lemma createUserHandler_status_witness :
  createUserHandler ascii_ci split_semicolon sample_itoa
    sample_driver_text (mkRequest "" "Bob;ANN@X.COM") 7 ann_world
  = (mkOutcome
       ["Error creating user: user with email 'ANN@X.COM' already exists"]
       (mkReply 409
          (mkResponse "user with email 'ANN@X.COM' already exists" NoData 7)),
     ann_world) /\
  exists name email,
    split_semicolon "Bob;ANN@X.COM" = Some (name, email) /\
    name <> "" /\ email <> "" /\
    CreateUser ascii_ci name email ann_world
    = (inl (ConflictError email), ann_world).
Proof.
  assert (H1 : createUserHandler ascii_ci split_semicolon sample_itoa
    sample_driver_text (mkRequest "" "Bob;ANN@X.COM") 7 ann_world
               = (mkOutcome
                    ["Error creating user: user with email 'ANN@X.COM' already exists"]
                    (mkReply 409
                       (mkResponse "user with email 'ANN@X.COM' already exists"
                          NoData 7)),
                  ann_world))
    by (vm_compute; reflexivity).
  destruct (createUserHandler_status ascii_ci split_semicolon sample_itoa
              sample_driver_text _ _ _ _ _ H1) as (_ & _ & _ & H409).
  exact (conj H1 (proj1 H409 eq_refl)).
Defined.

Lemma updateUserHandler_status_witness :
  updateUserHandler ascii_ci sample_Atoi split_semicolon sample_itoa
    sample_driver_text (mkRequest "12" "Bob;bob@x.com") 7 ann_world
  = (mkOutcome ["Error updating user: user with ID 12 not found"]
       (mkReply 404 (mkResponse "user with ID 12 not found" NoData 7)),
     ann_world) /\
  exists id name email,
    sample_Atoi "12" = Some id /\
    split_semicolon "Bob;bob@x.com" = Some (name, email) /\
    name <> "" /\ email <> "" /\
    UpdateUser ascii_ci id name email ann_world
    = (inl (NotFoundError id), ann_world).
Proof.
  assert (H1 : updateUserHandler ascii_ci sample_Atoi split_semicolon sample_itoa
    sample_driver_text (mkRequest "12" "Bob;bob@x.com") 7 ann_world
               = (mkOutcome ["Error updating user: user with ID 12 not found"]
                    (mkReply 404
                       (mkResponse "user with ID 12 not found" NoData 7)),
                  ann_world))
    by (vm_compute; reflexivity).
  destruct (updateUserHandler_status ascii_ci sample_Atoi split_semicolon
              sample_itoa sample_driver_text _ _ _ _ _ H1)
    as (_ & _ & _ & H404 & _).
  exact (conj H1 (proj1 H404 eq_refl)).
Defined.

Lemma deleteUserHandler_status_witness :
  deleteUserHandler sample_Atoi sample_itoa sample_driver_text (mkRequest "1" "") 7 ann_world
  = (mkOutcome []
       (mkReply 200 (mkResponse "User deleted successfully" NoData 7)),
     mkWorld (mkServer ∅ 2 0) []) /\
  exists id,
    sample_Atoi "1" = Some id /\
    DeleteUser id ann_world = (inr tt, mkWorld (mkServer ∅ 2 0) []) /\
    users (server (mkWorld (mkServer ∅ 2 0) []))
    = delete id (users (server ann_world)).
Proof.
  assert (H1 : deleteUserHandler sample_Atoi sample_itoa sample_driver_text (mkRequest "1" "") 7 ann_world
               = (mkOutcome []
                    (mkReply 200
                       (mkResponse "User deleted successfully" NoData 7)),
                  mkWorld (mkServer ∅ 2 0) []))
    by (vm_compute; reflexivity).
  destruct (deleteUserHandler_status sample_Atoi sample_itoa
              sample_driver_text _ _ _ _ _ H1) as (_ & _ & _ & H200).
  exact (conj H1 (proj1 H200 eq_refl)).
Defined.

Lemma client_errors_leave_table_witness :
  createUserHandler ascii_ci split_semicolon sample_itoa
    sample_driver_text (mkRequest "" "Bob;ANN@X.COM") 7
    (mkWorld (server ann_world) [Tick 4])
  = (mkOutcome
       ["Error creating user: user with email 'ANN@X.COM' already exists"]
       (mkReply 409
          (mkResponse "user with email 'ANN@X.COM' already exists" NoData 7)),
     mkWorld (advance 4 (server ann_world)) []) /\
  400 <= 409 < 500 /\
  users (advance 4 (server ann_world)) = users (server ann_world) /\
  auto_increment (advance 4 (server ann_world))
  = auto_increment (server ann_world).
Proof.
  assert (H1 : createUserHandler ascii_ci split_semicolon sample_itoa
    sample_driver_text (mkRequest "" "Bob;ANN@X.COM") 7
                 (mkWorld (server ann_world) [Tick 4])
               = (mkOutcome
                    ["Error creating user: user with email 'ANN@X.COM' already exists"]
                    (mkReply 409
                       (mkResponse "user with email 'ANN@X.COM' already exists"
                          NoData 7)),
                  mkWorld (advance 4 (server ann_world)) []))
    by (vm_compute; reflexivity).
  assert (H2 : 400 <= 409 < 500) by lia.
  destruct (client_errors_leave_table ascii_ci sample_Atoi split_semicolon
              sample_itoa sample_driver_text (mkRequest "" "Bob;ANN@X.COM")
              7 _ _ _ (or_introl H1) H2) as (Husers & Hcounter & _).
  exact (conj H1 (conj H2 (conj Husers Hcounter))).
Defined.

Lemma createUserHandler_500_after_write_witness :
  split_semicolon "Bob;bob@x.com" = Some ("Bob", "bob@x.com") /\
  ids_allocated (server ann_world) /\
  ~ email_in_use ascii_ci "bob@x.com" (users (server ann_world)) /\
  calm 2 [Tick 1; Tick 0; Fault] = true /\
  drop 2 [Tick 1; Tick 0; Fault] = [Fault] /\
  exists out w' t,
    createUserHandler ascii_ci split_semicolon sample_itoa
    sample_driver_text (mkRequest "" "Bob;bob@x.com") 7
      (mkWorld (server ann_world) [Tick 1; Tick 0; Fault]) = (out, w') /\
    reply out = sendJSONResponse 7 500 "Failed to create user" NoData /\
    users (server w') =
      <[2 := mkRow "Bob" "bob@x.com" t t]> (users (server ann_world)).
Proof.
  assert (H1 : split_semicolon "Bob;bob@x.com" = Some ("Bob", "bob@x.com"))
    by reflexivity.
  assert (H2 : ids_allocated (server ann_world)) by compute_done.
  assert (H3 : ~ email_in_use ascii_ci "bob@x.com" (users (server ann_world)))
    by compute_done.
  assert (H4 : calm 2 [Tick 1; Tick 0; Fault] = true) by reflexivity.
  assert (H5 : drop 2 [Tick 1; Tick 0; Fault] = [Fault]) by reflexivity.
  assert (Hname : "Bob" <> "") by discriminate.
  assert (Hemail : "bob@x.com" <> "") by discriminate.
  exact (conj H1 (conj H2 (conj H3 (conj H4 (conj H5
           (createUserHandler_500_after_write ascii_ci split_semicolon
              sample_itoa sample_driver_text (mkRequest "" "Bob;bob@x.com") 7
              (mkWorld (server ann_world) [Tick 1; Tick 0; Fault])
              "Bob" "bob@x.com" [] H1 Hname Hemail eq_refl eq_refl
              H2 H3 H4 H5)))))).
Defined.

Lemma getUserByIDHandler_never_500_witness :
  getUserByIDHandler sample_Atoi sample_itoa sample_driver_text (mkRequest "1" "") 7 (mkWorld (server ann_world) [Fault])
  = (mkOutcome
       ["Error getting user by ID 1: failed to get user: driver: bad connection"]
       (mkReply 404 (mkResponse "User not found" NoData 7)),
     ann_world) /\
  (404 = 400 \/ 404 = 200 \/ 404 = 404).
Proof.
  assert (H1 : getUserByIDHandler sample_Atoi sample_itoa sample_driver_text (mkRequest "1" "") 7
                 (mkWorld (server ann_world) [Fault])
               = (mkOutcome
                    ["Error getting user by ID 1: failed to get user: driver: bad connection"]
                    (mkReply 404 (mkResponse "User not found" NoData 7)),
                  ann_world))
    by (vm_compute; reflexivity).
  destruct (getUserByIDHandler_never_500 sample_Atoi sample_itoa
              sample_driver_text _ _ _ _ _ H1) as (Hcodes & _).
  exact (conj H1 Hcodes).
Defined.

Lemma read_handlers_keep_table_witness :
  getUsersStatsHandler sample_itoa sample_driver_text 6 7
    (mkWorld (server ann_world) [Tick 4])
  = (mkOutcome []
       (mkReply 200
          (mkResponse "Users statistics retrieved successfully"
             (StatsData 1 6) 7)),
     mkWorld (advance 4 (server ann_world)) []) /\
  users (advance 4 (server ann_world)) = users (server ann_world) /\
  auto_increment (advance 4 (server ann_world))
  = auto_increment (server ann_world).
Proof.
  assert (H1 : getUsersStatsHandler sample_itoa sample_driver_text 6 7
                 (mkWorld (server ann_world) [Tick 4])
               = (mkOutcome []
                    (mkReply 200
                       (mkResponse "Users statistics retrieved successfully"
                          (StatsData 1 6) 7)),
                  mkWorld (advance 4 (server ann_world)) []))
    by (vm_compute; reflexivity).
  exact (conj H1
           (read_handlers_keep_table sample_Atoi sample_itoa
              sample_driver_text (mkRequest "" "") 6 7 _ _ _
              (or_intror (or_intror (or_introl H1))))).
Defined.

Example healthHandler_database_down :
  healthHandler sample_driver_text 6 7 (Some (mkWorld (server ann_world) [Fault]))
  = (mkOutcome []
       (mkReply 200
          (mkResponse "API is running successfully"
             (HealthData "healthy" "1.0.0" "error: driver: bad connection" 6)
             7)),
     Some ann_world).
Proof. vm_compute. done. Qed.

(** ** Configuration and start-up at concrete processes *)

Example getEnv_empty_variable_hides_file :
  getEnv (godotenv_Load (Some {[ "DB_HOST" := "from-file" ]})
            {[ "DB_HOST" := "" ]}).2 "DB_HOST" "localhost" = "localhost" /\
  getEnv (godotenv_Load (Some {[ "DB_HOST" := "from-file" ]}) ∅).2
    "DB_HOST" "localhost" = "from-file" /\
  getEnv (godotenv_Load (Some {[ "DB_HOST" := "from-file" ]})
            {[ "DB_HOST" := "from-env" ]}).2 "DB_HOST" "localhost"
  = "from-env".
Proof. vm_compute. done. Qed.

Lemma InitDB_success_witness :
  InitDB any_dsn None fresh_process
  = (([WarnNoConfigFile;
       LogConnected
         "root:@tcp(localhost:3306)/hoctap_api?charset=utf8mb4&parseTime=True&loc=Local";
       LogTablesVerified], None),
     mkProcess ∅
       (Some (mkHandle
                "root:@tcp(localhost:3306)/hoctap_api?charset=utf8mb4&parseTime=True&loc=Local"
                25 10 false))
       (mkSite true (quiet 0))) /\
  any_dsn (data_source_name (godotenv_Load None (environ fresh_process)).2)
  = true /\
  calm 2 (pending (world (site fresh_process))) = true.
Proof.
  assert (H1 : InitDB any_dsn None fresh_process
               = (([WarnNoConfigFile;
                    LogConnected
                      "root:@tcp(localhost:3306)/hoctap_api?charset=utf8mb4&parseTime=True&loc=Local";
                    LogTablesVerified], None),
                  mkProcess ∅
                    (Some (mkHandle
                             "root:@tcp(localhost:3306)/hoctap_api?charset=utf8mb4&parseTime=True&loc=Local"
                             25 10 false))
                    (mkSite true (quiet 0))))
    by (vm_compute; reflexivity).
  destruct (InitDB_success any_dsn _ _ _ _ _ H1) as (Hiff & _).
  exact (conj H1 (proj1 Hiff eq_refl)).
Defined.


Lemma startup_fresh_database_witness :
  users_table (site fresh_process) = false /\
  any_dsn (data_source_name (godotenv_Load None (environ fresh_process)).2)
  = true /\
  seeds_distinct ascii_ci /\
  calm 12 (pending (world (site fresh_process))) = true /\
  exists logs p' t1 t2 t3,
    startup ascii_ci any_dsn None fresh_process
    = ((logs, Serving None), p') /\
    users_table (site p') = true /\
    users (server (world (site p'))) = seeded_table 1 t1 t2 t3.
Proof.
  assert (H1 : users_table (site fresh_process) = false) by reflexivity.
  assert (H2 : any_dsn (data_source_name
                          (godotenv_Load None (environ fresh_process)).2)
               = true) by reflexivity.
  assert (H3 : seeds_distinct ascii_ci) by compute_done.
  assert (H4 : calm 12 (pending (world (site fresh_process))) = true)
    by reflexivity.
  exact (conj H1 (conj H2 (conj H3 (conj H4
           (startup_fresh_database ascii_ci any_dsn None fresh_process
              H1 H2 H3 H4))))).
Defined.



(** ** The email check at concrete strings *)

Example isValidEmail_examples :
  isValidEmail (code_units "ann@x.com") = true /\
  isValidEmail (code_units "a@b..c") = true /\
  isValidEmail (code_units "ann@x") = false /\
  isValidEmail (code_units "ann@.com") = false /\
  isValidEmail (code_units "@x.com") = false /\
  isValidEmail (code_units "an n@x.com") = false /\
  isValidEmail (code_units "ann@@x.com") = false /\
  isValidEmail (code_units "ann@x.") = false /\
  isValidEmail [] = false.
Proof. vm_compute. done. Qed.

Lemma isValidEmail_accepted_witness :
  isValidEmail (code_units "ann@x.com") = true /\
  length (filter (fun c => c = 64%N) (code_units "ann@x.com")) = 1%nat /\
  (5 <= length (code_units "ann@x.com"))%nat.
Proof.
  assert (H1 : isValidEmail (code_units "ann@x.com") = true) by reflexivity.
  destruct (isValidEmail_accepted _ H1) as (Hone & _ & _ & Hlen).
  exact (conj H1 (conj Hone Hlen)).
Defined.
